(** * ved: the split planner [gen_split_part_info] of [ved/video/utils.py]

    The generator computes, for a video of [video_len] seconds and a part
    length of [part_len] seconds, the start time, the stop time and the file
    name of every part the [split] command writes.

    The Python code works on [float].  The planner is embedded once, over an
    interface [PyFloat] holding the float operations it uses.
    - [Binary64] is the arithmetic of the code: IEEE 754 binary64 as
      specified by [SpecFloat], every operation rounded, with the exceptions
      Python raises on division by zero, infinities and NaN.
    - [ExactQ] is exact rational arithmetic.  It is not what the code
      computes: it leaves out the rounding of each operation and the
      overflow to infinity, and serves to compare a run with the unrounded
      numbers.

    A theorem is stated for every instance of [PyFloat], and so holds of
    [Binary64], or for [Binary64] itself; where a part of a theorem is over
    [ExactQ], the theorem says so. *)

From Stdlib Require Import String Ascii DecimalString SpecFloat.
From Stdlib Require Import ZArith QArith Qround Qabs List Bool Lia Lqa.
From Stdlib Require Import DecimalPos DecimalZ.
Import ListNotations.

Local Open Scope Z_scope.

(** ** Exceptions and results *)

(** The exceptions the arithmetic of the planner can raise. *)
Inductive exn : Set :=
| ZeroDivisionError   (* float division by zero *)
| OverflowError       (* int(inf), math.ceil(inf), an int too large for a float *)
| ValueError.         (* int(nan), math.ceil(nan) *)

Inductive result (A : Type) : Type :=
| Ok (a : A)
| Raise (e : exn).
Arguments Ok {A} a.
Arguments Raise {A} e.

Definition bind {A B : Type} (r : result A) (k : A -> result B) : result B :=
  match r with
  | Ok a => k a
  | Raise e => Raise e
  end.

Notation "x <- r ;; k" := (bind r (fun x => k))
  (at level 61, r at next level, right associativity).

(** ** The float operations used by the planner *)

Class PyFloat (F : Type) : Type := {
  truediv : F -> F -> result F;   (* x / y *)
  fsub    : F -> F -> F;          (* x - y *)
  fmul    : F -> F -> F;          (* x * y *)
  fabs    : F -> F;               (* math.fabs(x) *)
  of_int  : Z -> result F;        (* the int operand of a mixed operation *)
  int_of  : F -> result Z;        (* int(x): truncation toward zero *)
  ceil    : F -> result Z;        (* math.ceil(x) *)
  ge_int  : F -> Z -> bool        (* x >= n, n an int *)
}.

(** ** Paths and f-strings *)

(** [pathlib.Path] as far as the planner reads it: [stem] and [suffix]. *)
Record PurePath : Set := { stem : string; suffix : string }.

(** [str(n)] for an [int], as an f-string formats it. *)
Definition str_int (n : Z) : string := NilZero.string_of_int (Z.to_int n).

(** [range(s, s + n)]. *)
Fixpoint zrange (s : Z) (n : nat) : list Z :=
  match n with
  | O => []
  | S n' => s :: zrange (s + 1) n'
  end.

(** ** The planner *)

Section Planner.

Context {F : Type} {PF : PyFloat F}.

(** One yielded item.  The source yields [(start, stop, clip_name)] with
    [start] and [stop] passed through [str]; the record keeps the numbers
    that are printed, [None] for a [stop] of [None], and the two integers
    [part + 1] and [parts_total] that [clip_id] is built from. *)
Record part_info : Type := {
  index : Z;
  total : Z;
  start : F;
  stop : option F;
  clip_name : string
}.

(** Lines 103-113: what is computed before the loop. *)
Record split_head : Type := {
  part_ratio : F;
  leftover : F;
  parts_total : Z;
  termination : option F
}.

Definition gen_split_head (video_len part_len : F) : result split_head :=
  (* part_ratio = video_len / part_len *)
  part_ratio <- truediv video_len part_len ;;
  (* leftover = math.fabs(part_ratio - int(part_ratio)) * part_len *)
  whole <- int_of part_ratio ;;
  fwhole <- of_int whole ;;
  let leftover := fmul (fabs (fsub part_ratio fwhole)) part_len in
  (* parts_total = math.ceil(part_ratio) if leftover >= 1 else int(part_ratio) *)
  parts_total <- (if ge_int leftover 1 then ceil part_ratio else int_of part_ratio) ;;
  (* termination = None if leftover >= 1 else str(parts_total * part_len) *)
  termination <- (if ge_int leftover 1 then Ok None
                  else ftotal <- of_int parts_total ;;
                       Ok (Some (fmul ftotal part_len))) ;;
  Ok {| part_ratio := part_ratio; leftover := leftover;
        parts_total := parts_total; termination := termination |}.

(** Lines 117-128: the body of the loop for one value of [part].  [sfx] is
    the parameter [suffix] of the source, [suffix video_path] the attribute
    of the path. *)
Definition gen_split_part (part_len : F) (video_path : PurePath) (sfx : string)
    (parts_total : Z) (termination : option F) (part : Z) : result part_info :=
  (* clip_id = f"{suffix}{part+1}_of_{parts_total}" *)
  let clip_id := (sfx ++ str_int (part + 1) ++ "_of_" ++ str_int parts_total)%string in
  (* clip_name = f"{video_path.stem}_{clip_id}{video_path.suffix}" *)
  let clip_name := (stem video_path ++ "_" ++ clip_id ++ suffix video_path)%string in
  (* start = str(part_len * part) *)
  fpart <- of_int part ;;
  let start := fmul part_len fpart in
  (* stop = str(part_len * (part + 1)) if part + 1 != parts_total else termination *)
  stop <- (if negb (part + 1 =? parts_total)
           then fnext <- of_int (part + 1) ;; Ok (Some (fmul part_len fnext))
           else Ok termination) ;;
  Ok {| index := part + 1; total := parts_total;
        start := start; stop := stop; clip_name := clip_name |}.

(** [for part in range(...)]: [n] iterations left, the next one at [part].
    The result is the list of the items yielded and the exception that
    ended the iteration, if one did. *)
Fixpoint gen_loop (body : Z -> result part_info) (n : nat) (part : Z)
    : list part_info * option exn :=
  match n with
  | O => ([], None)
  | S n' =>
      match body part with
      | Raise e => ([], Some e)
      | Ok p => let (ps, r) := gen_loop body n' (part + 1) in (p :: ps, r)
      end
  end.

(** The generator, run to its end.  [part_len] stands for
    [convert_to_seconds(length)] and [video_len] for the duration returned
    by [extract_video_info(str(video_path))]; [range(parts_total)] is empty
    when [parts_total <= 0]. *)
Definition gen_split_part_info (video_len part_len : F)
    (video_path : PurePath) (sfx : string) : list part_info * option exn :=
  match gen_split_head video_len part_len with
  | Raise e => ([], Some e)
  | Ok h =>
      gen_loop (gen_split_part part_len video_path sfx
                               (parts_total h) (termination h))
               (Z.to_nat (parts_total h)) 0
  end.

(** Lines 104 and 107 on their own: [leftover] as a function of the duration
    and the part length. *)
Definition leftover_of (video_len part_len : F) : result F :=
  (* part_ratio = video_len / part_len *)
  part_ratio <- truediv video_len part_len ;;
  (* leftover = math.fabs(part_ratio - int(part_ratio)) * part_len *)
  whole <- int_of part_ratio ;;
  fwhole <- of_int whole ;;
  Ok (fmul (fabs (fsub part_ratio fwhole)) part_len).

End Planner.

Arguments part_info F : clear implicits.
Arguments split_head F : clear implicits.

(** ** Exact rational arithmetic, for comparison *)

Module ExactQ.

(** [int(x)] truncates toward zero. *)
Definition Qtrunc (q : Q) : Z :=
  if Qle_bool 0 q then Qfloor q else Qceiling q.

(** The operations on the unrounded numbers, without infinities or NaN.
    This is not the arithmetic of the code. *)
#[export] Instance PyFloat_Q : PyFloat Q := {
  truediv x y := if Qeq_bool y 0 then Raise ZeroDivisionError else Ok (x / y)%Q;
  fsub := Qminus;
  fmul := Qmult;
  fabs := Qabs;
  of_int z := Ok (inject_Z z);
  int_of q := Ok (Qtrunc q);
  ceil q := Ok (Qceiling q);
  ge_int q n := Qle_bool (inject_Z n) q
}.

(** The values of the variables of the planner, in closed form. *)
Definition Qleftover (d pl : Q) : Q :=
  (Qabs (d / pl - inject_Z (Qtrunc (d / pl))) * pl)%Q.

Definition Qparts_total (d pl : Q) : Z :=
  if Qle_bool 1 (Qleftover d pl) then Qceiling (d / pl) else Qtrunc (d / pl).

Definition Qtermination (d pl : Q) : option Q :=
  if Qle_bool 1 (Qleftover d pl) then None
  else Some (inject_Z (Qparts_total d pl) * pl)%Q.

Definition Qpart (pl : Q) (video_path : PurePath) (sfx : string)
    (tot : Z) (term : option Q) (part : Z) : part_info Q :=
  {| index := part + 1; total := tot;
     start := (pl * inject_Z part)%Q;
     stop := if part + 1 =? tot then term
             else Some (pl * inject_Z (part + 1))%Q;
     clip_name := (stem video_path ++ "_" ++ (sfx ++ str_int (part + 1) ++ "_of_"
                     ++ str_int tot) ++ suffix video_path)%string |}.

End ExactQ.

(** ** The arithmetic of the code: IEEE 754 binary64 *)

Module Binary64.

Definition prec : Z := 53.
Definition emax : Z := 1024.

(** A finite float [S754_finite s m e] is [(-1)^s * m * 2^e]. *)
Definition trunc_finite (s : bool) (m : positive) (e : Z) : Z :=
  cond_Zopp s (if 0 <=? e then Zpos m * 2 ^ e else Zpos m / 2 ^ (- e)).

Definition ceil_finite (s : bool) (m : positive) (e : Z) : Z :=
  if 0 <=? e then cond_Zopp s (Zpos m * 2 ^ e)
  else if s then - (Zpos m / 2 ^ (- e))
  else - (Zneg m / 2 ^ (- e)).

(** [int(x)] and [math.ceil(x)] raise on infinities and NaN. *)
Definition to_int (finite : bool -> positive -> Z -> Z) (x : spec_float) : result Z :=
  match x with
  | S754_zero _ => Ok 0
  | S754_infinity _ => Raise OverflowError
  | S754_nan => Raise ValueError
  | S754_finite s m e => Ok (finite s m e)
  end.

(** An [int] operand is converted to the nearest double, ties to even;
    one too large for a double raises. *)
Definition float_of_int (n : Z) : result spec_float :=
  match binary_normalize prec emax n 0 false with
  | S754_infinity _ => Raise OverflowError
  | x => Ok x
  end.

(** [x / y] raises when [y == 0.0], whatever [x] is. *)
Definition float_div (x y : spec_float) : result spec_float :=
  match y with
  | S754_zero _ => Raise ZeroDivisionError
  | _ => Ok (SFdiv prec emax x y)
  end.

(** [x >= n] compares the exact values of the float and of the int. *)
Definition float_ge_int (x : spec_float) (n : Z) : bool :=
  match x with
  | S754_zero _ => n <=? 0
  | S754_infinity s => negb s
  | S754_nan => false
  | S754_finite s m e =>
      if 0 <=? e then n <=? cond_Zopp s (Zpos m * 2 ^ e)
      else n * 2 ^ (- e) <=? cond_Zopp s (Zpos m)
  end.

#[export] Instance PyFloat_binary64 : PyFloat spec_float := {
  truediv := float_div;
  fsub := SFsub prec emax;
  fmul := SFmul prec emax;
  fabs := SFabs;
  of_int := float_of_int;
  int_of := to_int trunc_finite;
  ceil := to_int ceil_finite;
  ge_int := float_ge_int
}.

(** The double nearest to [n / d], for writing literals such as [20.3]. *)
Definition lit (n d : Z) : spec_float :=
  SFdiv prec emax (binary_normalize prec emax n 0 false)
                  (binary_normalize prec emax d 0 false).

(** [math.isfinite(x)]. *)
Definition isfinite (x : spec_float) : bool :=
  match x with
  | S754_zero _ | S754_finite _ _ _ => true
  | _ => false
  end.

(** [math.floor(x)] of a finite [x]; the planner calls [int], the
    specification says [floor]. *)
Definition floor_finite (s : bool) (m : positive) (e : Z) : Z :=
  if 0 <=? e then cond_Zopp s (Zpos m * 2 ^ e)
  else cond_Zopp s (Zpos m) / 2 ^ (- e).

(** [signed s x]: [x] is a zero, a finite number or an infinity whose sign
    bit is [s] ([true] for minus); NaN has no sign. *)
Definition signed (s : bool) (x : spec_float) : Prop :=
  match x with
  | S754_zero s' | S754_infinity s' | S754_finite s' _ _ => s' = s
  | S754_nan => False
  end.

End Binary64.

Import ExactQ Binary64.

(** ** The planner in the words of the specification *)

(** Section 4.1, steps 1 to 3: [ratio], [leftover] and [total], with
    [floor] where the code has [int]. *)
Module SegmentPlanner.

Definition ratio (duration partLength : Q) : Q := (duration / partLength)%Q.

Definition leftover (duration partLength : Q) : Q :=
  (Qabs (ratio duration partLength
         - inject_Z (Qfloor (ratio duration partLength))) * partLength)%Q.

Definition total (duration partLength : Q) : Z :=
  if Qle_bool 1 (leftover duration partLength)
  then Qceiling (ratio duration partLength)
  else Qfloor (ratio duration partLength).

End SegmentPlanner.

(** ** Coverage of the source *)

Section Coverage.

Context {F : Type}.

(** The ranges [[start, end)] of a plan, in the order yielded.  The last part
    ends where the source ends, whatever its [stop] is; a [stop] of [None]
    means the end of the source as well. *)
Fixpoint ranges (duration : F) (ps : list (part_info F)) : list (F * F) :=
  match ps with
  | [] => []
  | p :: ps' =>
      (start p, match ps', stop p with
                | _ :: _, Some e => e
                | _, _ => duration
                end) :: ranges duration ps'
  end.


End Coverage.


(** A file and the default [--suffix] of the [split] command, for the
    concrete runs. *)
Definition video : PurePath := {| stem := "video"; suffix := ".mp4" |}.
Definition part_sfx : string := "_part_".

(** ** Time stamps and the name of a clip *)

(** [s.split(sep)] for a separator of one character: the pieces between the
    occurrences of [sep], empty ones included. *)
Fixpoint split_on (sep : ascii) (s : string) : list string :=
  match s with
  | EmptyString => [EmptyString]
  | String c s' =>
      if Ascii.eqb c sep then EmptyString :: split_on sep s'
      else match split_on sep s' with
           | piece :: pieces => String c piece :: pieces
           | [] => [String c EmptyString]
           end
  end.

(** [sep.join(pieces)]. *)
Fixpoint join (sep : string) (pieces : list string) : string :=
  match pieces with
  | [] => EmptyString
  | [piece] => piece
  | piece :: rest => (piece ++ sep ++ join sep rest)%string
  end.

(** The number of occurrences of a character, and the string without
    them. *)
Fixpoint count_char (c : ascii) (s : string) : nat :=
  match s with
  | EmptyString => O
  | String a s' => (if Ascii.eqb a c then 1 else 0) + count_char c s'
  end.

Fixpoint remove_char (c : ascii) (s : string) : string :=
  match s with
  | EmptyString => EmptyString
  | String a s' => if Ascii.eqb a c then remove_char c s' else String a (remove_char c s')
  end.

(** The three messages of [TimeStamp.convert]. *)
Inductive timestamp_error : Set :=
| NotTimeStampFormat    (* "... is not an acceptable time stamp format." *)
| NotNumeric            (* "... are not the correct numeric type." *)
| NotInRange.           (* "... are not within the correct range." *)

Section TimeStamp.

Context {F : Type}.

(** [int(s)] and [float(s)] of a string, [None] for [ValueError], and
    [x <= n] for a float and an int. *)
Variable py_int : string -> option Z.
Variable py_float : string -> option F.
Variable le_int : F -> Z -> bool.

(** [TimeStamp.convert] of [ved/__main__.py], for a value that is a
    string. *)
Definition timestamp_convert (value : string) : timestamp_error + string :=
  let converted := value in
  (* hour, min, sec = converted.split(":") *)
  match split_on ":" converted with
  | [hour; min; sec] =>
      (* int(hour); int(min); float(sec) *)
      match py_int hour, py_int min, py_float sec with
      | Some _, Some m, Some s =>
          (* assert int(min) <= 60 and float(sec) <= 60 *)
          if (m <=? 60) && le_int s 60 then inr converted else inl NotInRange
      | _, _, _ => inl NotNumeric
      end
  | _ => inl NotTimeStampFormat
  end.

End TimeStamp.

(** The name of the file the [clip] command writes. *)
Definition clip_command_name (video_file : PurePath) (start stop : string) : string :=
  (* clip_id = f"clip_{''.join(start.split(':'))}_{''.join(stop.split(':'))}" *)
  let clip_id := ("clip_" ++ join "" (split_on ":" start) ++ "_"
                    ++ join "" (split_on ":" stop))%string in
  (* clip_name = f"{video_file.stem}_{clip_id}{video_file.suffix}" *)
  (stem video_file ++ "_" ++ clip_id ++ suffix video_file)%string.

(** ** Finding video files *)

(** [s.lstrip(c)] for one character. *)
Fixpoint lstrip (c : ascii) (s : string) : string :=
  match s with
  | EmptyString => EmptyString
  | String a s' => if Ascii.eqb a c then lstrip c s' else s
  end.

(** A [dict] with string keys, in insertion order. *)
Fixpoint dict_get {V : Type} (d : list (string * V)) (k : string) : option V :=
  match d with
  | [] => None
  | (k', v) :: d' => if String.eqb k' k then Some v else dict_get d' k
  end.

Definition PREFERRED_AUDIO_CODEC : list (string * string) :=
  [("mp4"%string, "aac"%string)].

(** [get_audio_codec]: the path is read through its [suffix]. *)
Definition get_audio_codec (videofile : PurePath) : option string :=
  let ext := lstrip "." (suffix videofile) in
  (* PREFERRED_AUDIO_CODEC[ext] if ext in PREFERRED_AUDIO_CODEC else None *)
  dict_get PREFERRED_AUDIO_CODEC ext.

Section VideoPaths.

(** moviepy's [extensions_dict], reduced to the ["type"] of every extension,
    and [video_dir.glob(pattern)]. *)
Variable extensions_dict : list (string * string).
Variable glob : string -> list PurePath.

Definition gen_video_extensions : list string :=
  map fst (filter (fun kv => String.eqb (snd kv) "video") extensions_dict).

Definition gen_video_paths : list PurePath :=
  flat_map (fun ext => glob ("**/*." ++ ext)%string) gen_video_extensions.

Definition gen_video_paths_filter_ext (ext : string) : list PurePath :=
  filter (fun path => negb (String.eqb (suffix path) ext)) gen_video_paths.

End VideoPaths.

(** [c * n] for a character. *)
Fixpoint repeat_char (c : ascii) (n : nat) : string :=
  match n with
  | O => EmptyString
  | S n' => String c (repeat_char c n')
  end.

(** ** Facts that hold in every arithmetic *)

Lemma string_app_assoc (a b c : string) :
  ((a ++ b) ++ c)%string = (a ++ b ++ c)%string.
Proof. induction a; simpl; [reflexivity | now rewrite IHa]. Qed.

Lemma zrange_length (n : nat) : forall s, length (zrange s n) = n.
Proof. induction n; simpl; intros; [reflexivity | now rewrite IHn]. Qed.

Section PlannerFacts.

Context {F : Type} {PF : PyFloat F}.

Lemma gen_loop_nth (body : Z -> result (part_info F)) (n : nat) :
  forall s ps r k p,
    gen_loop body n s = (ps, r) -> nth_error ps k = Some p ->
    body (s + Z.of_nat k) = Ok p /\ (k < n)%nat.
Proof.
  induction n; simpl; intros s ps r k p Hrun Hk.
  - inversion Hrun; subst. destruct k; discriminate.
  - destruct (body s) as [q|e] eqn:Hb.
    + destruct (gen_loop body n (s + 1)) as [qs r'] eqn:Hrest.
      inversion Hrun; subst. destruct k; simpl in Hk.
      * inversion Hk; subst. rewrite Z.add_0_r. split; [assumption | lia].
      * destruct (IHn _ _ _ _ _ Hrest Hk) as [Hq Hlt].
        split; [|lia].
        replace (s + Z.of_nat (S k)) with (s + 1 + Z.of_nat k) by lia.
        assumption.
    + inversion Hrun; subst. destruct k; discriminate.
Qed.

Lemma gen_loop_exhausted (body : Z -> result (part_info F)) (n : nat) :
  forall s ps, gen_loop body n s = (ps, None) -> length ps = n.
Proof.
  induction n; simpl; intros s ps Hrun.
  - now inversion Hrun.
  - destruct (body s) as [q|e]; [|discriminate].
    destruct (gen_loop body n (s + 1)) as [qs r'] eqn:Hrest.
    inversion Hrun; subst. simpl. f_equal. eauto.
Qed.

(** A body that never raises on the range runs the loop to its end. *)
Lemma gen_loop_pure (body : Z -> result (part_info F)) (f : Z -> part_info F)
    (n : nat) :
  forall s,
    (forall k, (k < n)%nat -> body (s + Z.of_nat k) = Ok (f (s + Z.of_nat k))) ->
    gen_loop body n s = (map f (zrange s n), None).
Proof.
  induction n; simpl; intros s Hb; [reflexivity|].
  pose proof (Hb O ltac:(lia)) as H0. rewrite Z.add_0_r in H0. rewrite H0.
  rewrite IHn; [reflexivity|].
  intros k Hk. specialize (Hb (S k) ltac:(lia)).
  replace (s + 1 + Z.of_nat k) with (s + Z.of_nat (S k)) by lia.
  assumption.
Qed.

(** A body that raises nothing on the range lets the loop run to its end. *)
Lemma gen_loop_returns (body : Z -> result (part_info F)) (n : nat) :
  forall s,
    (forall k, (k < n)%nat -> exists p, body (s + Z.of_nat k) = Ok p) ->
    exists ps, gen_loop body n s = (ps, None).
Proof.
  induction n; simpl; intros s Hb; [now exists []|].
  destruct (Hb O ltac:(lia)) as (p & Hp). rewrite Z.add_0_r in Hp. rewrite Hp.
  destruct (IHn (s + 1)) as (ps & Hps).
  - intros k Hk. destruct (Hb (S k) ltac:(lia)) as (q & Hq).
    exists q. replace (s + 1 + Z.of_nat k) with (s + Z.of_nat (S k)) by lia.
    assumption.
  - rewrite Hps. now exists (p :: ps).
Qed.

(** What one successful iteration of the loop yields. *)
Lemma gen_split_part_inv (part_len : F) (video_path : PurePath) (sfx : string)
    (tot : Z) (term : option F) (part : Z) (p : part_info F) :
  gen_split_part part_len video_path sfx tot term part = Ok p ->
  index p = part + 1 /\ total p = tot /\
  clip_name p = (stem video_path ++ "_" ++ sfx ++ str_int (part + 1) ++ "_of_"
                   ++ str_int tot ++ suffix video_path)%string /\
  (exists fpart, of_int part = Ok fpart /\ start p = fmul part_len fpart) /\
  (part + 1 <> tot ->
     exists fnext, of_int (part + 1) = Ok fnext /\ stop p = Some (fmul part_len fnext)) /\
  (part + 1 = tot -> stop p = term).
Proof.
  unfold gen_split_part. intros Hp.
  destruct (of_int part) as [fpart|e] eqn:Hpart; simpl in Hp; [|discriminate].
  destruct (part + 1 =? tot) eqn:Hlast; simpl in Hp.
  - apply Z.eqb_eq in Hlast. inversion Hp; subst p; simpl.
    rewrite !string_app_assoc.
    repeat split; try assumption.
    + now exists fpart.
    + intros Hne. contradiction.
  - apply Z.eqb_neq in Hlast.
    destruct (of_int (part + 1)) as [fnext|e] eqn:Hnext; simpl in Hp; [|discriminate].
    inversion Hp; subst p; simpl.
    rewrite !string_app_assoc.
    repeat split.
    + now exists fpart.
    + intros _. now exists fnext.
    + intros Heq. contradiction.
Qed.

(** Every item the generator yields comes from one iteration of the loop,
    run with the values computed before the loop. *)
Lemma gen_split_part_info_nth (video_len part_len : F) (video_path : PurePath)
    (sfx : string) (ps : list (part_info F)) (r : option exn) (k : nat)
    (p : part_info F) :
  gen_split_part_info video_len part_len video_path sfx = (ps, r) ->
  nth_error ps k = Some p ->
  exists h, gen_split_head video_len part_len = Ok h /\
    gen_split_part part_len video_path sfx (parts_total h) (termination h)
                   (Z.of_nat k) = Ok p /\
    (Z.of_nat k < parts_total h).
Proof.
  unfold gen_split_part_info. intros Hrun Hk.
  destruct (gen_split_head video_len part_len) as [h|e].
  - exists h. split; [reflexivity|].
    destruct (gen_loop_nth _ _ _ _ _ _ _ Hrun Hk) as [Hb Hlt].
    split; [exact Hb | lia].
  - inversion Hrun; subst. destruct k; discriminate.
Qed.

(** A run that ends without an exception yields [parts_total] items. *)
Lemma gen_split_part_info_exhausted (video_len part_len : F)
    (video_path : PurePath) (sfx : string) (ps : list (part_info F)) :
  gen_split_part_info video_len part_len video_path sfx = (ps, None) ->
  exists h, gen_split_head video_len part_len = Ok h /\
    length ps = Z.to_nat (parts_total h).
Proof.
  unfold gen_split_part_info. intros Hrun.
  destruct (gen_split_head video_len part_len) as [h|e]; [|discriminate].
  exists h. split; [reflexivity|]. eapply gen_loop_exhausted; eassumption.
Qed.

(** Once the lines before the loop have raised nothing, only the conversion
    of [part] or [part + 1] to a float can raise. *)
Lemma gen_split_part_info_returns (video_len part_len : F)
    (video_path : PurePath) (sfx : string) (h : split_head F) :
  gen_split_head video_len part_len = Ok h ->
  (forall z, 0 <= z <= parts_total h -> exists fz, of_int z = Ok fz) ->
  exists ps, gen_split_part_info video_len part_len video_path sfx = (ps, None).
Proof.
  intros Hh Hconv. unfold gen_split_part_info. rewrite Hh.
  apply gen_loop_returns. intros k Hk.
  unfold gen_split_part.
  destruct (Hconv (0 + Z.of_nat k) ltac:(lia)) as (fk & ->). cbn [bind].
  destruct (negb (0 + Z.of_nat k + 1 =? parts_total h)).
  - destruct (Hconv (0 + Z.of_nat k + 1) ltac:(lia)) as (fn & ->). cbn [bind].
    eexists. reflexivity.
  - cbn [bind]. eexists. reflexivity.
Qed.

(** How [parts_total] and [termination] are chosen, when the lines before
    the loop raise nothing. *)
Lemma gen_split_head_inv (video_len part_len : F) (h : split_head F) :
  gen_split_head video_len part_len = Ok h ->
  truediv video_len part_len = Ok (part_ratio h) /\
  (if ge_int (leftover h) 1
   then ceil (part_ratio h) = Ok (parts_total h) /\ termination h = None
   else int_of (part_ratio h) = Ok (parts_total h) /\
        exists ftotal, of_int (parts_total h) = Ok ftotal /\
                       termination h = Some (fmul ftotal part_len)).
Proof.
  unfold gen_split_head. intros Hh.
  destruct (truediv video_len part_len) as [r|]; [|discriminate].
  cbn [bind] in Hh.
  destruct (int_of r) as [w|] eqn:Hw; [|discriminate]. cbn [bind] in Hh.
  destruct (of_int w) as [fw|] eqn:Hfw; [|discriminate]. cbn [bind] in Hh.
  destruct (ge_int (fmul (fabs (fsub r fw)) part_len) 1) eqn:Hge.
  - destruct (ceil r) as [c|] eqn:Hc; [|discriminate]. cbn [bind] in Hh.
    inversion Hh; subst h; cbn [termination leftover part_ratio parts_total].
    rewrite Hge. auto.
  - cbn [bind] in Hh. rewrite Hfw in Hh. cbn [bind] in Hh.
    inversion Hh; subst h; cbn [termination leftover part_ratio parts_total].
    rewrite Hge. split; [reflexivity|]. split; [assumption|].
    exists fw. auto.
Qed.

Lemma termination_none (video_len part_len : F) (h : split_head F) :
  gen_split_head video_len part_len = Ok h ->
  (termination h = None <-> ge_int (leftover h) 1 = true).
Proof.
  intros Hh. destruct (gen_split_head_inv _ _ _ Hh) as (_ & Hsel).
  destruct (ge_int (leftover h) 1).
  - destruct Hsel as (_ & ->). tauto.
  - destruct Hsel as (_ & ft & _ & ->). split; discriminate.
Qed.

(** The last item carries [termination]; every other one a product. *)
Lemma gen_split_part_info_stop (video_len part_len : F) (video_path : PurePath)
    (sfx : string) (ps : list (part_info F)) (k : nat) (p : part_info F) :
  gen_split_part_info video_len part_len video_path sfx = (ps, None) ->
  nth_error ps k = Some p ->
  exists h, gen_split_head video_len part_len = Ok h /\
    ((S k < length ps)%nat ->
       exists fnext, of_int (Z.of_nat (S k)) = Ok fnext /\
                     stop p = Some (fmul part_len fnext)) /\
    (S k = length ps -> stop p = termination h).
Proof.
  intros Hrun Hk.
  destruct (gen_split_part_info_exhausted _ _ _ _ _ Hrun) as (h & Hh & Hlen).
  destruct (gen_split_part_info_nth _ _ _ _ _ _ _ _ Hrun Hk) as (h' & Hh' & Hp & Hlt).
  assert (h' = h) by congruence. subst h'.
  exists h. split; [assumption|].
  destruct (gen_split_part_inv _ _ _ _ _ _ _ Hp) as (_ & _ & _ & _ & Hmid & Hend).
  split; intros Hpos.
  - replace (Z.of_nat (S k)) with (Z.of_nat k + 1) by lia.
    apply Hmid. lia.
  - apply Hend. lia.
Qed.

(** [start] is the product of [part_len] and [part], in every arithmetic. *)
Lemma gen_split_part_info_start (video_len part_len : F) (video_path : PurePath)
    (sfx : string) (ps : list (part_info F)) (r : option exn) (k : nat)
    (p : part_info F) :
  gen_split_part_info video_len part_len video_path sfx = (ps, r) ->
  nth_error ps k = Some p ->
  index p = Z.of_nat (S k) /\
  exists fpart, of_int (index p - 1) = Ok fpart /\ start p = fmul part_len fpart.
Proof.
  intros Hrun Hk.
  destruct (gen_split_part_info_nth _ _ _ _ _ _ _ _ Hrun Hk) as (h & _ & Hp & _).
  destruct (gen_split_part_inv _ _ _ _ _ _ _ Hp) as (Hi & _ & _ & Hstart & _).
  split; [lia|].
  replace (index p - 1) with (Z.of_nat k) by lia. assumption.
Qed.

(** A part that is followed by another one stops where that one starts:
    both numbers are the same product. *)
Lemma gen_split_part_info_adjacent (video_len part_len : F)
    (video_path : PurePath) (sfx : string) (ps : list (part_info F))
    (r : option exn) (k : nat) (p q : part_info F) :
  gen_split_part_info video_len part_len video_path sfx = (ps, r) ->
  nth_error ps k = Some p -> nth_error ps (S k) = Some q ->
  (exists fnext, of_int (index p) = Ok fnext /\ stop p = Some (fmul part_len fnext)) /\
  stop p = Some (start q).
Proof.
  intros Hrun Hp Hq.
  destruct (gen_split_part_info_nth _ _ _ _ _ _ _ _ Hrun Hp) as (h & Hh & Hbp & _).
  destruct (gen_split_part_info_nth _ _ _ _ _ _ _ _ Hrun Hq) as (h' & Hh' & Hbq & Hlt).
  assert (h' = h) by congruence. subst h'.
  destruct (gen_split_part_inv _ _ _ _ _ _ _ Hbp) as (Hi & _ & _ & _ & Hmid & _).
  destruct (gen_split_part_inv _ _ _ _ _ _ _ Hbq) as (_ & _ & _ & Hstart & _).
  destruct Hmid as (fnext & Hn & Hstop); [lia|].
  destruct Hstart as (fpart & Hs & ->).
  replace (Z.of_nat (S k)) with (Z.of_nat k + 1) in Hs by lia.
  split.
  - exists fnext. rewrite Hi. auto.
  - congruence.
Qed.

(** The leftover that is tested is the one of lines 104 and 107. *)
Lemma gen_split_head_leftover (video_len part_len : F) (h : split_head F) :
  gen_split_head video_len part_len = Ok h ->
  leftover_of video_len part_len = Ok (leftover h).
Proof.
  unfold gen_split_head, leftover_of. intros Hh.
  destruct (truediv video_len part_len) as [r|]; [|discriminate].
  cbn [bind] in *.
  destruct (int_of r) as [w|]; [|discriminate]. cbn [bind] in *.
  destruct (of_int w) as [fw|] eqn:Hfw; [|discriminate]. cbn [bind] in *.
  destruct (ge_int (fmul (fabs (fsub r fw)) part_len) 1).
  - destruct (ceil r) as [c|]; [|discriminate]. cbn [bind] in Hh.
    inversion Hh. reflexivity.
  - cbn [bind] in Hh. rewrite Hfw in Hh. cbn [bind] in Hh.
    inversion Hh. reflexivity.
Qed.

(** [range(parts_total)] is empty for a total that is not positive. *)
Lemma gen_split_part_info_empty (video_len part_len : F) (video_path : PurePath)
    (sfx : string) (h : split_head F) :
  gen_split_head video_len part_len = Ok h -> parts_total h <= 0 ->
  gen_split_part_info video_len part_len video_path sfx = ([], None).
Proof.
  intros Hh Hle. unfold gen_split_part_info. rewrite Hh.
  replace (Z.to_nat (parts_total h)) with O by lia. reflexivity.
Qed.

(** *** Where an exception comes from *)

Lemma gen_loop_raises (body : Z -> result (part_info F)) (n : nat) :
  forall s ps e,
    gen_loop body n s = (ps, Some e) -> exists k, body (s + Z.of_nat k) = Raise e.
Proof.
  induction n; simpl; intros s ps e Hrun; [discriminate|].
  destruct (body s) as [q|e'] eqn:Hb.
  - destruct (gen_loop body n (s + 1)) as [qs r] eqn:Hrest.
    inversion Hrun; subst.
    destruct (IHn _ _ _ Hrest) as (k & Hk). exists (S k).
    replace (s + Z.of_nat (S k)) with (s + 1 + Z.of_nat k) by lia. assumption.
  - inversion Hrun; subst. exists O. now rewrite Z.add_0_r.
Qed.

Lemma gen_split_part_raises (part_len : F) (video_path : PurePath) (sfx : string)
    (tot : Z) (term : option F) (part : Z) (e : exn) :
  gen_split_part part_len video_path sfx tot term part = Raise e ->
  exists z, of_int z = Raise e.
Proof.
  unfold gen_split_part. intros Hp.
  destruct (of_int part) as [fpart|e'] eqn:Hpart; cbn [bind] in Hp.
  - destruct (negb (part + 1 =? tot)); cbn [bind] in Hp; [|discriminate].
    destruct (of_int (part + 1)) as [fnext|e'] eqn:Hnext; cbn [bind] in Hp;
      [discriminate|].
    exists (part + 1). congruence.
  - exists part. congruence.
Qed.

Lemma gen_split_head_raises (video_len part_len : F) (e : exn) :
  gen_split_head video_len part_len = Raise e ->
  truediv video_len part_len = Raise e \/
  exists r, truediv video_len part_len = Ok r /\
    (int_of r = Raise e \/ ceil r = Raise e \/ exists z, of_int z = Raise e).
Proof.
  unfold gen_split_head. intros Hh.
  destruct (truediv video_len part_len) as [r|e1]; cbn [bind] in Hh;
    [right; exists r; split; [reflexivity|] | left; congruence].
  destruct (int_of r) as [w|e1] eqn:Hw; cbn [bind] in Hh; [|left; congruence].
  destruct (of_int w) as [fw|e1] eqn:Hfw; cbn [bind] in Hh;
    [|right; right; exists w; congruence].
  destruct (ge_int (fmul (fabs (fsub r fw)) part_len) 1).
  - destruct (ceil r) as [c|e1] eqn:Hc; cbn [bind] in Hh; [discriminate|].
    right; left; congruence.
  - cbn [bind] in Hh. rewrite Hfw in Hh. discriminate.
Qed.

(** An exception that ends a run was raised by the division, by
    [int(part_ratio)], by [math.ceil(part_ratio)] or by the conversion of an
    [int] to a float. *)
Lemma gen_split_part_info_raises (video_len part_len : F) (video_path : PurePath)
    (sfx : string) (ps : list (part_info F)) (e : exn) :
  gen_split_part_info video_len part_len video_path sfx = (ps, Some e) ->
  truediv video_len part_len = Raise e \/
  exists r, truediv video_len part_len = Ok r /\
    (int_of r = Raise e \/ ceil r = Raise e \/ exists z, of_int z = Raise e).
Proof.
  unfold gen_split_part_info. intros Hrun.
  destruct (gen_split_head video_len part_len) as [h|e1] eqn:Hh.
  - destruct (gen_split_head_inv _ _ _ Hh) as (Hr & _).
    destruct (gen_loop_raises _ _ _ _ _ Hrun) as (k & Hk).
    destruct (gen_split_part_raises _ _ _ _ _ _ _ Hk) as (z & Hz).
    right. exists (part_ratio h). split; [assumption|]. right; right.
    now exists z.
  - inversion Hrun; subst. now apply gen_split_head_raises.
Qed.

(** *** Parts that follow one another *)



End PlannerFacts.

(** ** Binary64: signs, and which exception *)

(** *** Rounding never gives NaN *)

Lemma shr_1_nonneg (mrs : shr_record) : 0 <= shr_m mrs -> 0 <= shr_m (shr_1 mrs).
Proof.
  destruct mrs as [m r s]. cbn [shr_m]. intros Hm.
  destruct m as [|[p|p|]|p]; cbn; lia.
Qed.

Lemma iter_pos_invariant {A : Type} (f : A -> A) (Inv : A -> Prop) :
  (forall x, Inv x -> Inv (f x)) ->
  forall p x, Inv x -> Inv (SpecFloat.iter_pos f p x).
Proof.
  intros Hf. induction p; intros x Hx; cbn; auto.
Qed.

Lemma shr_nonneg (mrs : shr_record) (e n : Z) :
  0 <= shr_m mrs -> 0 <= shr_m (fst (shr mrs e n)).
Proof.
  intros Hm. unfold shr. destruct n; cbn [fst]; try assumption.
  apply iter_pos_invariant; [apply shr_1_nonneg | assumption].
Qed.

Lemma shr_fexp_nonneg (m e : Z) (l : location) :
  0 <= m -> 0 <= shr_m (fst (shr_fexp prec emax m e l)).
Proof.
  intros Hm. unfold shr_fexp. apply shr_nonneg.
  destruct l as [|[]]; assumption.
Qed.

Lemma round_nearest_even_nonneg (m : Z) (l : location) :
  0 <= m -> 0 <= round_nearest_even m l.
Proof.
  intros Hm. unfold round_nearest_even.
  destruct l as [|[]]; try assumption; [destruct (Z.even m)|]; lia.
Qed.

(** Rounding a mantissa that is not negative gives a zero, a finite number
    or an infinity of the sign asked for, never NaN. *)
Lemma binary_round_aux_signed (sx : bool) (mx ex : Z) (lx : location) :
  0 <= mx -> signed sx (binary_round_aux prec emax sx mx ex lx).
Proof.
  intros Hm. unfold binary_round_aux.
  pose proof (shr_fexp_nonneg mx ex lx Hm) as H1.
  destruct (shr_fexp prec emax mx ex lx) as [mrs' e']. cbn [fst] in H1.
  pose proof (shr_fexp_nonneg _ e' loc_Exact
                (round_nearest_even_nonneg _ (loc_of_shr_record mrs') H1)) as H2.
  destruct (shr_fexp prec emax _ e' loc_Exact) as [mrs'' e'']. cbn [fst] in H2.
  destruct (shr_m mrs'') as [|m|m]; [reflexivity | | lia].
  destruct (e'' <=? emax - prec); reflexivity.
Qed.

Lemma SFdiv_core_binary_nonneg (m1 m2 : positive) (e1 e2 : Z) :
  0 <= fst (fst (SFdiv_core_binary prec emax (Zpos m1) e1 (Zpos m2) e2)).
Proof.
  unfold SFdiv_core_binary.
  set (s := e1 - e2 - _).
  set (m' := match s with 0 => Zpos m1 | Zpos _ => _ | Zneg _ => 0 end).
  assert (Hm' : 0 <= m').
  { subst m'. destruct s; try lia. apply Z.shiftl_nonneg. lia. }
  pose proof (Z.div_pos m' (Zpos m2) Hm' ltac:(lia)) as Hq.
  change (IntDef.Z.div_eucl m' (Zpos m2)) with (Z.div_eucl m' (Zpos m2)).
  unfold Z.div in Hq.
  destruct (Z.div_eucl m' (Zpos m2)) as [q r]. exact Hq.
Qed.

(** The sign of a quotient of two numbers, the divisor not zero. *)
Lemma SFdiv_signed (sx sy : bool) (x y : spec_float) :
  signed sx x -> isfinite x = true -> signed sy y ->
  (forall s, y <> S754_zero s) ->
  signed (xorb sx sy) (SFdiv prec emax x y).
Proof.
  intros Hx Hfx Hy Hnz.
  destruct x as [sx'|sx'| |sx' mx ex]; try discriminate; cbn in Hx; subst sx';
    destruct y as [sy'|sy'| |sy' my ey]; cbn in Hy; try contradiction; subst;
    try (now destruct (Hnz sy)); try reflexivity.
  cbn [SFdiv].
  pose proof (SFdiv_core_binary_nonneg mx my ex ey) as Hq.
  destruct (SFdiv_core_binary prec emax (Zpos mx) ex (Zpos my) ey) as [[mz ez] lz].
  cbn [fst] in Hq. now apply binary_round_aux_signed.
Qed.


Lemma trunc_finite_pos (m : positive) (e : Z) : 0 <= trunc_finite false m e.
Proof.
  unfold trunc_finite. cbn [cond_Zopp].
  destruct (0 <=? e) eqn:He.
  - apply Z.leb_le in He. pose proof (Z.pow_nonneg 2 e ltac:(lia)). nia.
  - apply Z.leb_gt in He.
    pose proof (Z.pow_pos_nonneg 2 (- e) ltac:(lia) ltac:(lia)).
    apply Z.div_pos; lia.
Qed.


Lemma ceil_finite_pos (m : positive) (e : Z) : 1 <= ceil_finite false m e.
Proof.
  unfold ceil_finite. cbn [cond_Zopp].
  destruct (0 <=? e) eqn:He.
  - apply Z.leb_le in He. pose proof (Z.pow_pos_nonneg 2 e ltac:(lia) He). nia.
  - apply Z.leb_gt in He.
    pose proof (Z.pow_pos_nonneg 2 (- e) ltac:(lia) ltac:(lia)) as Hp.
    assert (Zneg m / 2 ^ (- e) < 0) by (apply Z.div_lt_upper_bound; lia).
    lia.
Qed.

(** Below 1, [math.ceil] of a positive number is 1. *)
Lemma ceil_finite_unit (m : positive) (e : Z) :
  trunc_finite false m e = 0 -> ceil_finite false m e = 1.
Proof.
  unfold trunc_finite, ceil_finite. cbn [cond_Zopp].
  destruct (0 <=? e) eqn:He.
  - apply Z.leb_le in He. pose proof (Z.pow_pos_nonneg 2 e ltac:(lia) He). nia.
  - apply Z.leb_gt in He. intros H0.
    pose proof (Z.pow_pos_nonneg 2 (- e) ltac:(lia) ltac:(lia)) as Hp.
    apply Z.div_small_iff in H0; [|lia].
    assert (Zneg m / 2 ^ (- e) = -1); [|lia].
    symmetry. apply (Z.div_unique_pos _ _ _ (Zneg m + 2 ^ (- e))); lia.
Qed.

Lemma floor_finite_trunc (m : positive) (e : Z) :
  floor_finite false m e = trunc_finite false m e.
Proof. reflexivity. Qed.


(** *** What the hypotheses on the sign say *)




Lemma float_div_ok (x y r : spec_float) :
  float_div x y = Ok r ->
  r = SFdiv prec emax x y /\ forall s, y <> S754_zero s.
Proof.
  unfold float_div. destruct y; intros H; inversion H;
    (split; [reflexivity | discriminate]).
Qed.

Lemma float_div_nonzero (x y : spec_float) :
  (forall s, y <> S754_zero s) -> float_div x y = Ok (SFdiv prec emax x y).
Proof.
  intros Hnz. unfold float_div. destruct y; try reflexivity. now destruct (Hnz s).
Qed.

(** *** Which exception *)

Lemma float_of_int_raises (z : Z) (e : exn) :
  float_of_int z = Raise e -> e = OverflowError.
Proof.
  unfold float_of_int.
  destruct (binary_normalize prec emax z 0 false); intros H; inversion H.
  reflexivity.
Qed.



(** Only a part length of zero makes the division raise. *)
Lemma binary64_no_zero_division (d pl : spec_float) (video_path : PurePath)
    (sfx : string) :
  (forall s, pl <> S754_zero s) ->
  snd (gen_split_part_info d pl video_path sfx) <> Some ZeroDivisionError.
Proof.
  intros Hnz.
  destruct (gen_split_part_info d pl video_path sfx) as [ps [e|]] eqn:Hrun;
    cbn [snd]; [|discriminate].
  intros He. inversion He; subst e.
  destruct (gen_split_part_info_raises _ _ _ _ _ _ Hrun)
    as [Hdiv | (r & Hdiv & [Hi | [Hc | (z & Hz)]])];
    cbn [truediv int_of ceil of_int PyFloat_binary64] in *.
  - rewrite float_div_nonzero in Hdiv by assumption. discriminate.
  - destruct r; discriminate.
  - destruct r; discriminate.
  - apply float_of_int_raises in Hz. discriminate.
Qed.

(** *** A quotient that is not positive *)



(** A quotient that is a zero leaves no second over. *)
Lemma zero_ratio_leftover (d pl lo : spec_float) (s : bool) :
  float_div d pl = Ok (S754_zero s) -> leftover_of d pl = Ok lo ->
  float_ge_int lo 1 = false.
Proof.
  intros Hdiv. unfold leftover_of.
  cbn [truediv int_of of_int fmul fabs fsub PyFloat_binary64].
  rewrite Hdiv. cbn [bind to_int].
  change (float_of_int 0) with (Ok (A := spec_float) (S754_zero false)).
  cbn [bind]. intros H. inversion H; subst lo.
  destruct s, pl as [sp|sp| |sp mp ep]; reflexivity.
Qed.

(** For a duration that is not negative and a part length above zero, a
    quotient that [int] or [math.ceil] accepts is a zero or a positive
    finite number. *)
Lemma nonneg_ratio (f : bool -> positive -> Z -> Z) (d pl ratio : spec_float)
    (z : Z) :
  SFleb (S754_zero false) d = true -> SFltb (S754_zero false) pl = true ->
  float_div d pl = Ok ratio -> to_int f ratio = Ok z ->
  (exists s, ratio = S754_zero s) \/ (exists m e, ratio = S754_finite false m e).
Proof.
  intros Hd Hpl Hq Hz.
  destruct (float_div_ok _ _ _ Hq) as (-> & _).
  destruct d as [sd|[]| |[] md ed]; try (cbv in Hd; discriminate Hd);
    destruct pl as [sp|[]| |[] mp ep]; try (cbv in Hpl; discriminate Hpl);
    try (left; eexists; reflexivity); try discriminate Hz.
  pose proof (SFdiv_signed false false (S754_finite false md ed)
                (S754_finite false mp ep) eq_refl eq_refl eq_refl
                ltac:(discriminate)) as Hs.
  destruct (SFdiv prec emax _ _) as [s|s| |s m e]; cbn [signed xorb] in Hs;
    try contradiction; try discriminate; subst.
  - left. eexists. reflexivity.
  - right. do 2 eexists. reflexivity.
Qed.

(** *** A quotient that is NaN *)

Lemma SFdiv_nan (d pl : spec_float) :
  (forall s, pl <> S754_zero s) ->
  (SFdiv prec emax d pl = S754_nan <->
   d = S754_nan \/ pl = S754_nan \/
   exists s s', d = S754_infinity s /\ pl = S754_infinity s').
Proof.
  intros Hnz. split.
  - intros Hnan.
    destruct d as [sd|sd| |sd md ed]; auto;
      destruct pl as [sp|sp| |sp mp ep]; auto;
      try (now destruct (Hnz sp)); try discriminate Hnan.
    + right; right. now exists sd, sp.
    + pose proof (SFdiv_signed sd sp (S754_finite sd md ed)
                    (S754_finite sp mp ep) eq_refl eq_refl eq_refl
                    ltac:(discriminate)) as Hs.
      rewrite Hnan in Hs. contradiction.
  - intros [-> | [-> | (s & s' & -> & ->)]]; [reflexivity | | reflexivity].
    destruct d; reflexivity.
Qed.

(** [int(part_ratio)] raises ValueError on a quotient that is NaN, before
    anything is yielded. *)
Lemma binary64_nan_ratio (d pl : spec_float) (video_path : PurePath)
    (sfx : string) :
  float_div d pl = Ok S754_nan ->
  gen_split_part_info d pl video_path sfx = ([], Some ValueError).
Proof.
  intros Hq. unfold gen_split_part_info, gen_split_head.
  cbn [truediv int_of PyFloat_binary64]. rewrite Hq. reflexivity.
Qed.

Lemma binary64_value_error (d pl : spec_float) (video_path : PurePath)
    (sfx : string) :
  snd (gen_split_part_info d pl video_path sfx) = Some ValueError ->
  float_div d pl = Ok S754_nan.
Proof.
  destruct (gen_split_part_info d pl video_path sfx) as [ps r] eqn:Hrun.
  cbn [snd]. intros ->.
  destruct (gen_split_part_info_raises _ _ _ _ _ _ Hrun)
    as [Hdiv | (r & Hdiv & [Hi | [Hc | (z & Hz)]])];
    cbn [truediv int_of ceil of_int PyFloat_binary64] in *.
  - unfold float_div in Hdiv. destruct pl; discriminate Hdiv.
  - destruct r; try discriminate Hi. assumption.
  - destruct r; try discriminate Hc. assumption.
  - apply float_of_int_raises in Hz. discriminate Hz.
Qed.

(** ** Exact arithmetic: the planner in closed form *)

Local Open Scope Q_scope.

Lemma gen_split_head_Q (d pl : Q) :
  ~ pl == 0 ->
  gen_split_head d pl =
    Ok {| part_ratio := d / pl; leftover := Qleftover d pl;
          parts_total := Qparts_total d pl; termination := Qtermination d pl |}.
Proof.
  intros Hpl.
  unfold gen_split_head, Qtermination, Qparts_total, Qleftover.
  cbn [truediv int_of of_int ge_int ceil fmul fabs fsub PyFloat_Q].
  destruct (Qeq_bool pl 0) eqn:E.
  - apply Qeq_bool_iff in E. contradiction.
  - cbn [bind]. change (inject_Z 1) with 1.
    destruct (Qle_bool 1 _); reflexivity.
Qed.

Lemma gen_split_part_Q (pl : Q) (video_path : PurePath) (sfx : string)
    (tot : Z) (term : option Q) (part : Z) :
  gen_split_part pl video_path sfx tot term part =
    Ok (Qpart pl video_path sfx tot term part).
Proof.
  unfold gen_split_part, Qpart.
  cbn [of_int fmul PyFloat_Q bind].
  destruct (part + 1 =? tot)%Z; reflexivity.
Qed.

(** Over the rationals nothing but the division can raise. *)
Lemma gen_split_part_info_Q (d pl : Q) (video_path : PurePath) (sfx : string) :
  ~ pl == 0 ->
  gen_split_part_info d pl video_path sfx =
    (map (Qpart pl video_path sfx (Qparts_total d pl) (Qtermination d pl))
         (zrange 0 (Z.to_nat (Qparts_total d pl))), None).
Proof.
  intros Hpl. unfold gen_split_part_info.
  rewrite gen_split_head_Q by assumption. cbn [parts_total termination].
  apply gen_loop_pure. intros k _. apply gen_split_part_Q.
Qed.

(** *** Integers among the rationals *)

Lemma inject_Z_pred (z : Z) : inject_Z (z - 1) == inject_Z z - 1.
Proof. unfold Z.sub. rewrite inject_Z_plus. reflexivity. Qed.

Lemma inject_Z_succ (z : Z) : inject_Z (z + 1) == inject_Z z + 1.
Proof. rewrite inject_Z_plus. reflexivity. Qed.

Lemma Qfloor_unique (r : Q) (z : Z) :
  inject_Z z <= r -> r < inject_Z z + 1 -> Qfloor r = z.
Proof.
  intros Hlo Hhi.
  pose proof (Qfloor_le r) as H1.
  pose proof (Qlt_floor r) as H2. rewrite inject_Z_succ in H2.
  assert (A : inject_Z (Qfloor r) < inject_Z (z + 1)) by (rewrite inject_Z_succ; lra).
  assert (B : inject_Z z < inject_Z (Qfloor r + 1)) by (rewrite inject_Z_succ; lra).
  rewrite <- Zlt_Qlt in A, B. lia.
Qed.

Lemma Qceiling_nonpos (r : Q) : r <= 0 -> (Qceiling r <= 0)%Z.
Proof.
  intros Hr. pose proof (Qceiling_lt r) as H1. rewrite inject_Z_pred in H1.
  assert (A : inject_Z (Qceiling r) < inject_Z 1) by (change (inject_Z 1) with 1; lra).
  rewrite <- Zlt_Qlt in A. lia.
Qed.

Lemma Qtrunc_nonpos (r : Q) : r <= 0 -> (Qtrunc r <= 0)%Z.
Proof.
  intros Hr. unfold Qtrunc. destruct (Qle_bool 0 r) eqn:E.
  - apply Qle_bool_iff in E.
    rewrite (Qfloor_unique r 0); [lia | | ]; change (inject_Z 0) with 0; lra.
  - now apply Qceiling_nonpos.
Qed.

(** *** The quotient and the leftover *)

Lemma ratio_mult (d pl : Q) : ~ pl == 0 -> d / pl * pl == d.
Proof. intros. field. assumption. Qed.

Lemma Qparts_total_cases (d pl : Q) :
  (1 <= Qleftover d pl /\ Qparts_total d pl = Qceiling (d / pl) /\
   Qtermination d pl = None) \/
  (Qleftover d pl < 1 /\ Qparts_total d pl = Qtrunc (d / pl) /\
   Qtermination d pl = Some (inject_Z (Qtrunc (d / pl)) * pl)).
Proof.
  unfold Qtermination, Qparts_total.
  destruct (Qle_bool 1 (Qleftover d pl)) eqn:E.
  - left. apply Qle_bool_iff in E. auto.
  - right. split; [|auto].
    apply Qnot_le_lt. intros Hle. apply Qle_bool_iff in Hle. congruence.
Qed.

Lemma nonpos_total (d pl : Q) : d / pl <= 0 -> (Qparts_total d pl <= 0)%Z.
Proof.
  intros Hr.
  destruct (Qparts_total_cases d pl) as [(_ & -> & _) | (_ & -> & _)].
  - now apply Qceiling_nonpos.
  - now apply Qtrunc_nonpos.
Qed.

Lemma empty_plan (d pl : Q) (video_path : PurePath) (sfx : string) :
  ~ pl == 0 -> (Qparts_total d pl <= 0)%Z ->
  gen_split_part_info d pl video_path sfx = ([], None).
Proof.
  intros Hpl Ht. rewrite gen_split_part_info_Q by assumption.
  replace (Z.to_nat (Qparts_total d pl)) with O by lia. reflexivity.
Qed.

(** ** Binary64: two facts that need no rounding argument *)

Lemma binary64_zero_duration (d pl : spec_float) (video_path : PurePath)
    (sfx : string) :
  SFeqb d (S754_zero false) = true -> SFltb (S754_zero false) pl = true ->
  gen_split_part_info d pl video_path sfx = ([], None).
Proof.
  intros Hd Hpl.
  destruct d as [sd|[]| |[] md ed]; try (cbv in Hd; discriminate).
  destruct pl as [sp|[]| |[] mp ep]; try (cbv in Hpl; discriminate);
    destruct sd; reflexivity.
Qed.


(** ** The claims *)

Section ArithmeticClaims.

Local Open Scope Z_scope.

(** *** Coverage *)




(** *** The number of parts *)

(** C2 (amended).  In every arithmetic, a run that raises nothing yields
    [ceil(ratio)] parts when the leftover is at least one second and
    [int(ratio)] parts when it is less, [ratio] and [leftover] being the
    numbers the code computes: the quotient of the duration by the part
    length as the division rounds it, and the leftover of lines 104 and 107
    computed from that quotient.  Over binary64, for a duration that is not
    negative and a part length above 0, the count is [math.ceil(ratio)] or
    [math.floor(ratio)], which is what [int] gives there. *)
Theorem C2_parts_count :
  (forall (F : Type) (PF : PyFloat F) (video_len part_len : F)
          (video_path : PurePath) (sfx : string) (parts : list (part_info F)),
     gen_split_part_info video_len part_len video_path sfx = (parts, None) ->
     exists ratio lo,
       truediv video_len part_len = Ok ratio /\
       leftover_of video_len part_len = Ok lo /\
       (ge_int lo 1 = true ->
          exists c, ceil ratio = Ok c /\ length parts = Z.to_nat c) /\
       (ge_int lo 1 = false ->
          exists w, int_of ratio = Ok w /\ length parts = Z.to_nat w)) /\
  (forall (d pl : spec_float) (video_path : PurePath) (sfx : string)
          (parts : list (part_info spec_float)),
     SFleb (S754_zero false) d = true -> SFltb (S754_zero false) pl = true ->
     gen_split_part_info d pl video_path sfx = (parts, None) ->
     exists ratio lo,
       float_div d pl = Ok ratio /\ leftover_of d pl = Ok lo /\
       to_int floor_finite ratio = to_int trunc_finite ratio /\
       (float_ge_int lo 1 = true ->
          to_int ceil_finite ratio = Ok (Z.of_nat (length parts))) /\
       (float_ge_int lo 1 = false ->
          to_int floor_finite ratio = Ok (Z.of_nat (length parts)))).
Proof.
  split.
  - intros F PF video_len part_len video_path sfx parts Hrun.
    destruct (gen_split_part_info_exhausted _ _ _ _ _ Hrun) as (h & Hh & Hlen).
    destruct (gen_split_head_inv _ _ _ Hh) as (Hq & Hsel).
    exists (part_ratio h), (leftover h).
    split; [assumption|]. split; [now apply gen_split_head_leftover|].
    destruct (ge_int (leftover h) 1); split; intros Hge; try discriminate Hge.
    + destruct Hsel as (Hc & _). now exists (parts_total h).
    + destruct Hsel as (Hi & _). now exists (parts_total h).
  - intros d pl video_path sfx parts Hd Hpl Hrun.
    destruct (gen_split_part_info_exhausted _ _ _ _ _ Hrun) as (h & Hh & Hlen).
    destruct (gen_split_head_inv _ _ _ Hh) as (Hq & Hsel).
    cbn [truediv int_of ceil of_int ge_int PyFloat_binary64] in Hq, Hsel.
    exists (part_ratio h), (leftover h).
    split; [assumption|]. split; [now apply gen_split_head_leftover|].
    assert (Hform : (exists s, part_ratio h = S754_zero s) \/
                    (exists m e, part_ratio h = S754_finite false m e)).
    { destruct (float_ge_int (leftover h) 1).
      - destruct Hsel as (Hc & _). eapply nonneg_ratio; eassumption.
      - destruct Hsel as (Hi & _). eapply nonneg_ratio; eassumption. }
    split.
    { destruct Hform as [(s & ->) | (m & e & ->)]; reflexivity. }
    destruct (float_ge_int (leftover h) 1); split; intros Hge;
      try discriminate Hge.
    + destruct Hsel as (Hc & _). rewrite Hc. f_equal.
      destruct Hform as [(s & Hz) | (m & e & Hf)].
      * rewrite Hz in Hc. cbn [to_int] in Hc.
        assert (0 = parts_total h) by congruence. lia.
      * rewrite Hf in Hc. cbn [to_int] in Hc.
        assert (ceil_finite false m e = parts_total h) by congruence.
        pose proof (ceil_finite_pos m e). lia.
    + destruct Hsel as (Hi & _).
      destruct Hform as [(s & Hz) | (m & e & Hf)].
      * rewrite Hz in Hi |- *. cbn [to_int] in Hi |- *.
        assert (0 = parts_total h) by congruence. f_equal. lia.
      * rewrite Hf in Hi |- *. cbn [to_int] in Hi |- *.
        assert (trunc_finite false m e = parts_total h) by congruence.
        pose proof (trunc_finite_pos m e).
        rewrite floor_finite_trunc. f_equal. lia.
Qed.

Lemma C2_parts_count_witness :
  let parts := fst (gen_split_part_info (lit 25 1) (lit 10 1) video part_sfx) in
  SFleb (S754_zero false) (lit 25 1) = true /\
  SFltb (S754_zero false) (lit 10 1) = true /\
  gen_split_part_info (lit 25 1) (lit 10 1) video part_sfx = (parts, None) /\
  exists ratio lo,
    float_div (lit 25 1) (lit 10 1) = Ok ratio /\
    leftover_of (lit 25 1) (lit 10 1) = Ok lo /\
    to_int floor_finite ratio = to_int trunc_finite ratio /\
    (float_ge_int lo 1 = true ->
       to_int ceil_finite ratio = Ok (Z.of_nat (length parts))) /\
    (float_ge_int lo 1 = false ->
       to_int floor_finite ratio = Ok (Z.of_nat (length parts))).
Proof.
  intros parts.
  split; [reflexivity|]. split; [reflexivity|].
  split; [vm_compute; reflexivity|].
  apply (proj2 C2_parts_count (lit 25 1) (lit 10 1) video part_sfx parts);
    vm_compute; reflexivity.
Defined.

(** C2, as stated, fails for a source of 41 seconds split into parts of 10
    seconds.  On the numbers 41 and 10 the leftover of the claim is exactly
    one second and [ceil(41 / 10)] is 5; the code divides in binary64,
    computes a leftover of 0.9999999999999964, below one second, and yields
    [floor(4.1) = 4] parts, the last one ending at 40 seconds.  It fails as
    well where the run raises: 20 seconds split into parts of 1e-308 second
    make the quotient overflow, [int(part_ratio)] raises OverflowError and
    nothing is yielded. *)
Lemma C2_rounded_leftover_changes_count :
  (1 <= SegmentPlanner.leftover (41 # 1) (10 # 1))%Q /\
  Qceiling (SegmentPlanner.ratio (41 # 1) (10 # 1)) = 5 /\
  SegmentPlanner.total (41 # 1) (10 # 1) = 5 /\
  lit 41 1 = S754_finite false (41 * 2 ^ 47) (-47) /\
  lit 10 1 = S754_finite false (10 * 2 ^ 49) (-49) /\
  leftover_of (lit 41 1) (lit 10 1)
    = Ok (S754_finite false 9007199254740960 (-53)) /\
  float_ge_int (S754_finite false 9007199254740960 (-53)) 1 = false /\
  (exists p1 p2 p3 p4,
     gen_split_part_info (lit 41 1) (lit 10 1) video part_sfx
       = ([p1; p2; p3; p4], None) /\
     stop p4 = Some (lit 40 1)) /\
  SFleb (S754_zero false) (lit 20 1) = true /\
  SFltb (S754_zero false) (lit 1 (10 ^ 308)) = true /\
  gen_split_part_info (lit 20 1) (lit 1 (10 ^ 308)) video part_sfx
    = ([], Some OverflowError).
Proof.
  split; [vm_compute; discriminate|].
  repeat (split; [vm_compute; reflexivity|]).
  split; [do 4 eexists; split; vm_compute; reflexivity|].
  repeat (split; [vm_compute; reflexivity|]).
  vm_compute; reflexivity.
Qed.

(** *** The stop value of the last part *)

(** C3 (amended).  In every arithmetic and in every plan that is not empty,
    a part that is not the last one stops at [part_len * index]; the last
    part has no stop value ("through the end of the source") exactly when
    the leftover that was computed is at least one second; and when that
    leftover is below one second the last part stops at
    [parts_total * part_len]. *)
Theorem C3_sentinel_on_last_part {F : Type} {PF : PyFloat F}
    (video_len part_len : F) (video_path : PurePath) (sfx : string)
    (parts : list (part_info F)) :
  gen_split_part_info video_len part_len video_path sfx = (parts, None) ->
  parts <> [] ->
  (forall k p, nth_error parts k = Some p -> (S k < length parts)%nat ->
     exists fnext, of_int (Z.of_nat (S k)) = Ok fnext /\
                   stop p = Some (fmul part_len fnext)) /\
  (exists lo p, leftover_of video_len part_len = Ok lo /\
     nth_error parts (length parts - 1) = Some p /\
     (stop p = None <-> ge_int lo 1 = true) /\
     (ge_int lo 1 = false ->
        exists ftotal, of_int (Z.of_nat (length parts)) = Ok ftotal /\
                       stop p = Some (fmul ftotal part_len))).
Proof.
  intros Hrun Hne. split.
  - intros k p Hk Hlt.
    destruct (gen_split_part_info_stop _ _ _ _ _ _ _ Hrun Hk) as (h & _ & Hmid & _).
    exact (Hmid Hlt).
  - destruct (gen_split_part_info_exhausted _ _ _ _ _ Hrun) as (h & Hh & Hlen).
    assert (Hpos : (0 < length parts)%nat)
      by (destruct parts; [congruence | simpl; lia]).
    destruct (nth_error parts (length parts - 1)) as [p|] eqn:Hk;
      [|apply nth_error_None in Hk; lia].
    exists (leftover h), p.
    split; [now apply gen_split_head_leftover|]. split; [reflexivity|].
    destruct (gen_split_part_info_stop _ _ _ _ _ _ _ Hrun Hk)
      as (h' & Hh' & _ & Hend).
    assert (h' = h) by congruence. subst h'.
    rewrite Hend by lia.
    split; [exact (termination_none _ _ _ Hh)|].
    intros Hge.
    destruct (gen_split_head_inv _ _ _ Hh) as (_ & Hsel).
    rewrite Hge in Hsel. destruct Hsel as (_ & ftotal & Hft & Hterm).
    exists ftotal. split; [|assumption].
    rewrite Hlen, Z2Nat.id by lia. assumption.
Qed.

Lemma C3_sentinel_on_last_part_witness :
  let parts := fst (gen_split_part_info (lit 25 1) (lit 10 1) video part_sfx) in
  gen_split_part_info (lit 25 1) (lit 10 1) video part_sfx = (parts, None) /\
  parts <> [] /\
  (forall k p, nth_error parts k = Some p -> (S k < length parts)%nat ->
     exists fnext, of_int (Z.of_nat (S k)) = Ok fnext /\
                   stop p = Some (fmul (lit 10 1) fnext)) /\
  (exists lo p, leftover_of (lit 25 1) (lit 10 1) = Ok lo /\
     nth_error parts (length parts - 1) = Some p /\
     (stop p = None <-> ge_int lo 1 = true) /\
     (ge_int lo 1 = false ->
        exists ftotal, of_int (Z.of_nat (length parts)) = Ok ftotal /\
                       stop p = Some (fmul ftotal (lit 10 1)))).
Proof.
  intros parts.
  split; [vm_compute; reflexivity|]. split; [vm_compute; discriminate|].
  apply (C3_sentinel_on_last_part (lit 25 1) (lit 10 1) video part_sfx parts);
    [vm_compute; reflexivity | vm_compute; discriminate].
Defined.

(** C3, as stated, fails for scenario 2 of the specification, a source of 25
    seconds split into parts of 10: the leftover is 5 seconds and the last
    part is (3, 3, 20, None), not (3, 3, 20, 25), although 25 is not a
    multiple of 10.  On a duration that is a multiple, 20 seconds, the last
    part carries a number, 20. *)
Lemma C3_sentinel_without_exact_multiple :
  (exists q1 q2 q3,
     gen_split_part_info (lit 25 1) (lit 10 1) video part_sfx
       = ([q1; q2; q3], None) /\
     index q3 = 3 /\ total q3 = 3 /\ start q3 = lit 20 1 /\ stop q3 = None) /\
  leftover_of (lit 25 1) (lit 10 1) = Ok (lit 5 1) /\
  float_ge_int (lit 5 1) 1 = true /\
  (~ exists n : Z, (25 # 1 == inject_Z n * (10 # 1))%Q) /\
  (exists p1 p2,
     gen_split_part_info (lit 20 1) (lit 10 1) video part_sfx = ([p1; p2], None) /\
     stop p2 = Some (lit 20 1)).
Proof.
  split.
  { do 3 eexists. split; [vm_compute; reflexivity|].
    repeat split; vm_compute; reflexivity. }
  split; [vm_compute; reflexivity|]. split; [vm_compute; reflexivity|].
  split.
  { intros (n & E). unfold Qeq in E. simpl in E. lia. }
  do 2 eexists. split; vm_compute; reflexivity.
Qed.

(** *** Invalid arguments *)







(** *** Short and empty sources *)

(** C6 (amended).  Over binary64, for a duration above 0 and a part length
    above 0 whose quotient the division rounds below 1 ([int(part_ratio)] is
    0): when the leftover that is computed, [fabs(part_ratio - 0) *
    part_len], is at least one second the plan is one part, 1 of 1, starting
    at 0.0 and without a stop value, which is cut through the end of the
    source; when it is below one second the plan is empty. *)
Theorem C6_short_source (d pl ratio : spec_float) (video_path : PurePath)
    (sfx : string) :
  SFltb (S754_zero false) d = true -> SFltb (S754_zero false) pl = true ->
  float_div d pl = Ok ratio -> to_int trunc_finite ratio = Ok 0 ->
  exists lo,
    leftover_of d pl = Ok lo /\
    lo = SFmul prec emax (SFabs (SFsub prec emax ratio (S754_zero false))) pl /\
    (float_ge_int lo 1 = true ->
       exists p,
         gen_split_part_info d pl video_path sfx = ([p], None) /\
         index p = 1 /\ total p = 1 /\ start p = S754_zero false /\
         stop p = None /\ ranges d [p] = [(S754_zero false, d)]) /\
    (float_ge_int lo 1 = false ->
       gen_split_part_info d pl video_path sfx = ([], None)).
Proof.
  intros Hd Hpl Hq Hi.
  assert (Hlo : leftover_of d pl
                = Ok (SFmul prec emax
                        (SFabs (SFsub prec emax ratio (S754_zero false))) pl)).
  { unfold leftover_of.
    cbn [truediv int_of of_int fmul fabs fsub PyFloat_binary64].
    rewrite Hq. cbn [bind]. rewrite Hi. cbn [bind].
    change (float_of_int 0) with (Ok (A := spec_float) (S754_zero false)).
    reflexivity. }
  eexists. split; [exact Hlo|]. split; [reflexivity|].
  set (lo := SFmul prec emax _ pl) in *.
  assert (Hhead : gen_split_head d pl
            = (parts_total <- (if float_ge_int lo 1 then to_int ceil_finite ratio
                               else Ok 0) ;;
               termination <- (if float_ge_int lo 1 then Ok None
                               else Ok (Some (SFmul prec emax (S754_zero false) pl))) ;;
               Ok {| part_ratio := ratio; leftover := lo;
                     parts_total := parts_total; termination := termination |})).
  { unfold gen_split_head.
    cbn [truediv int_of of_int ceil ge_int fmul fabs fsub PyFloat_binary64].
    rewrite Hq. cbn [bind]. rewrite Hi. cbn [bind].
    change (float_of_int 0) with (Ok (A := spec_float) (S754_zero false)).
    cbn [bind]. fold lo.
    destruct (float_ge_int lo 1); [reflexivity|].
    cbn [bind].
    change (float_of_int 0) with (Ok (A := spec_float) (S754_zero false)).
    reflexivity. }
  split; intros Hge; rewrite Hge in Hhead.
  - (* the quotient is not a zero, and lies below 1 *)
    assert (Hd0 : SFleb (S754_zero false) d = true).
    { destruct d as [sd|[]| |[] md ed]; try (cbv in Hd; discriminate Hd);
        reflexivity. }
    destruct (nonneg_ratio _ _ _ _ _ Hd0 Hpl Hq Hi) as [(s & Hz) | (m & e & Hf)].
    { rewrite Hz in Hq.
      rewrite (zero_ratio_leftover _ _ _ _ Hq Hlo) in Hge. discriminate Hge. }
    assert (Hfinite : exists mp ep, pl = S754_finite false mp ep).
    { destruct pl as [sp|[]| |[] mp ep]; try (cbv in Hpl; discriminate Hpl).
      - exfalso. destruct (float_div_ok _ _ _ Hq) as (Er & _).
        rewrite Hf in Er.
        destruct d as [sd|[]| |[] md ed]; discriminate Er.
      - now exists mp, ep. }
    destruct Hfinite as (mp & ep & ->).
    subst ratio. cbn [to_int] in Hi, Hhead.
    assert (Htr : trunc_finite false m e = 0) by congruence.
    rewrite (ceil_finite_unit m e Htr) in Hhead. cbn [bind] in Hhead.
    unfold gen_split_part_info. rewrite Hhead.
    cbn [parts_total termination].
    change (Z.to_nat 1) with 1%nat. cbn [gen_loop].
    unfold gen_split_part.
    cbn [of_int fmul PyFloat_binary64].
    change (float_of_int 0) with (Ok (A := spec_float) (S754_zero false)).
    cbn [bind Z.add Z.eqb Pos.eqb negb SFmul xorb].
    eexists. split; [reflexivity|]. cbn [index total start stop ranges].
    repeat split.
  - cbn [bind] in Hhead.
    apply (gen_split_part_info_empty _ _ _ _ _ Hhead). cbn [parts_total]. lia.
Qed.

Lemma C6_short_source_witness :
  SFltb (S754_zero false) (lit 5 1) = true /\
  SFltb (S754_zero false) (lit 10 1) = true /\
  float_div (lit 5 1) (lit 10 1) = Ok (lit 1 2) /\
  to_int trunc_finite (lit 1 2) = Ok 0 /\
  exists lo,
    leftover_of (lit 5 1) (lit 10 1) = Ok lo /\
    lo = SFmul prec emax (SFabs (SFsub prec emax (lit 1 2) (S754_zero false)))
           (lit 10 1) /\
    (float_ge_int lo 1 = true ->
       exists p,
         gen_split_part_info (lit 5 1) (lit 10 1) video part_sfx = ([p], None) /\
         index p = 1 /\ total p = 1 /\ start p = S754_zero false /\
         stop p = None /\ ranges (lit 5 1) [p] = [(S754_zero false, lit 5 1)]) /\
    (float_ge_int lo 1 = false ->
       gen_split_part_info (lit 5 1) (lit 10 1) video part_sfx = ([], None)).
Proof.
  split; [reflexivity|]. split; [reflexivity|].
  split; [vm_compute; reflexivity|]. split; [vm_compute; reflexivity|].
  apply (C6_short_source (lit 5 1) (lit 10 1) (lit 1 2) video part_sfx);
    vm_compute; reflexivity.
Defined.

(** C6, as stated, fails for a source of half a second and parts of ten
    seconds: the plan has no part at all.  A source of exactly one second
    gets no part either when the parts are of 49 seconds: the leftover
    [1 / 49 * 49] is rounded to 0.9999999999999999, below 1. *)
Lemma C6_short_source_empty_plan :
  SFltb (S754_zero false) (lit 1 2) = true /\
  SFltb (lit 1 2) (lit 10 1) = true /\
  gen_split_part_info (lit 1 2) (lit 10 1) video part_sfx = ([], None) /\
  SFltb (S754_zero false) (lit 1 1) = true /\
  SFltb (lit 1 1) (lit 49 1) = true /\
  leftover_of (lit 1 1) (lit 49 1)
    = Ok (S754_finite false 9007199254740991 (-53)) /\
  gen_split_part_info (lit 1 1) (lit 49 1) video part_sfx = ([], None).
Proof.
  repeat (split; [vm_compute; reflexivity|]). vm_compute; reflexivity.
Qed.

End ArithmeticClaims.

(** *** An empty source *)

(** C7.  For a duration equal to 0 and a part length above 0 the generator
    yields nothing and raises nothing: over exact arithmetic, and over
    binary64 for a zero of either sign and every positive double or
    infinity as part length. *)
Theorem C7_zero_duration (d pl : Q) (fd fpl : spec_float)
    (video_path : PurePath) (sfx : string) :
  d == 0 -> 0 < pl ->
  SFeqb fd (S754_zero false) = true -> SFltb (S754_zero false) fpl = true ->
  gen_split_part_info d pl video_path sfx = ([], None) /\
  gen_split_part_info fd fpl video_path sfx = ([], None).
Proof.
  intros Hd Hpl Hfd Hfpl. split.
  - apply empty_plan; [lra|]. apply nonpos_total.
    assert (Hm : d / pl * pl == d) by (apply ratio_mult; lra).
    set (r := d / pl) in *. nra.
  - now apply binary64_zero_duration.
Qed.

Lemma C7_zero_duration_witness :
  0 # 1 == 0 /\ 0 < 10 # 1 /\
  SFeqb (lit 0 1) (S754_zero false) = true /\
  SFltb (S754_zero false) (lit 10 1) = true /\
  gen_split_part_info (0 # 1) (10 # 1) video part_sfx = ([], None) /\
  gen_split_part_info (lit 0 1) (lit 10 1) video part_sfx = ([], None).
Proof.
  split; [reflexivity|]. split; [reflexivity|].
  split; [reflexivity|]. split; [reflexivity|].
  apply (C7_zero_duration (0 # 1) (10 # 1) (lit 0 1) (lit 10 1) video part_sfx);
    reflexivity.
Defined.

(** *** Names and numbering, in every arithmetic *)

Section PlanShape.

Context {F : Type} {PF : PyFloat F}.

(** C8.  Every part that is yielded is named
    [{stem}_{suffix}{index}_of_{total}{extension}]: the stem of the source
    path, an underscore, the suffix token, the index of the part, [_of_],
    the total, and the extension of the source path. *)
Theorem C8_clip_name_scheme (video_len part_len : F) (video_path : PurePath)
    (sfx : string) :
  Forall (fun p =>
            clip_name p = (stem video_path ++ "_" ++ sfx ++ str_int (index p)
                             ++ "_of_" ++ str_int (total p)
                             ++ suffix video_path)%string)
         (fst (gen_split_part_info video_len part_len video_path sfx)).
Proof.
  destruct (gen_split_part_info video_len part_len video_path sfx) as [ps r] eqn:Hrun.
  cbn [fst]. apply Forall_forall. intros p Hin.
  destruct (In_nth_error _ _ Hin) as (k & Hk).
  destruct (gen_split_part_info_nth _ _ _ _ _ _ _ _ Hrun Hk) as (h & _ & Hp & _).
  destruct (gen_split_part_inv _ _ _ _ _ _ _ Hp) as (-> & -> & -> & _).
  reflexivity.
Qed.

(** C9.  In every plan (a run that raises nothing) the total is the same in
    every part and is the number of parts, and the indexes of the parts, in
    the order yielded, are 1, 2, ..., total. *)
Theorem C9_index_and_total (video_len part_len : F) (video_path : PurePath)
    (sfx : string) (parts : list (part_info F)) :
  gen_split_part_info video_len part_len video_path sfx = (parts, None) ->
  Forall (fun p => total p = Z.of_nat (length parts)) parts /\
  map index parts = map Z.of_nat (seq 1 (length parts)).
Proof.
  intros Hrun.
  destruct (gen_split_part_info_exhausted _ _ _ _ _ Hrun) as (h & Hh & Hlen).
  split.
  - apply Forall_forall. intros p Hin.
    destruct (In_nth_error _ _ Hin) as (k & Hk).
    destruct (gen_split_part_info_nth _ _ _ _ _ _ _ _ Hrun Hk) as (h' & Hh' & Hp & Hlt).
    assert (h' = h) by congruence. subst h'.
    destruct (gen_split_part_inv _ _ _ _ _ _ _ Hp) as (_ & -> & _). lia.
  - apply nth_error_ext. intros k.
    rewrite !nth_error_map, nth_error_seq.
    destruct (nth_error parts k) as [p|] eqn:Hk.
    + destruct (gen_split_part_info_start _ _ _ _ _ _ _ _ Hrun Hk) as (Hi & _).
      assert (Hklt : (k < length parts)%nat) by (apply nth_error_Some; congruence).
      destruct (Nat.ltb_spec k (length parts)); [|lia].
      cbn [option_map]. f_equal. lia.
    + apply nth_error_None in Hk.
      destruct (Nat.ltb_spec k (length parts)); [lia|]. reflexivity.
Qed.

End PlanShape.

Lemma C9_index_and_total_witness :
  let parts := fst (gen_split_part_info (lit 25 1) (lit 10 1) video part_sfx) in
  gen_split_part_info (lit 25 1) (lit 10 1) video part_sfx = (parts, None) /\
  Forall (fun p => total p = Z.of_nat (length parts)) parts /\
  map index parts = map Z.of_nat (seq 1 (length parts)).
Proof.
  intros parts. split; [vm_compute; reflexivity|].
  apply (C9_index_and_total (lit 25 1) (lit 10 1) video part_sfx parts).
  vm_compute; reflexivity.
Defined.

(** *** Start and stop as products *)

(** C10 (amended).  In every arithmetic, the start of a part is the product
    of the part length and [index - 1], and a part that is followed by
    another one stops at the product of the part length and [index], which
    is, exactly, the start of the next part.  Over exact arithmetic (duration
    >= 0, part length > 0) every part but the last has length exactly the
    part length; over binary64 each product is rounded, and so is not
    claimed there. *)
Theorem C10_boundaries_are_products :
  (forall (F : Type) (PF : PyFloat F) (video_len part_len : F)
          (video_path : PurePath) (sfx : string) (parts : list (part_info F))
          (r : option exn) (k : nat) (p : part_info F),
     gen_split_part_info video_len part_len video_path sfx = (parts, r) ->
     nth_error parts k = Some p ->
     (exists fpart, of_int (index p - 1) = Ok fpart /\
                    start p = fmul part_len fpart) /\
     (forall q, nth_error parts (S k) = Some q ->
        (exists fnext, of_int (index p) = Ok fnext /\
                       stop p = Some (fmul part_len fnext)) /\
        stop p = Some (start q))) /\
  (forall (d pl : Q) (video_path : PurePath) (sfx : string),
     0 <= d -> 0 < pl ->
     exists parts,
       gen_split_part_info d pl video_path sfx = (parts, None) /\
       forall k p, nth_error parts k = Some p -> (S k < length parts)%nat ->
         start p = pl * inject_Z (index p - 1) /\
         stop p = Some (pl * inject_Z (index p)) /\
         pl * inject_Z (index p) - start p == pl).
Proof.
  split.
  - intros F PF video_len part_len video_path sfx parts r k p Hrun Hk. split.
    + now destruct (gen_split_part_info_start _ _ _ _ _ _ _ _ Hrun Hk).
    + intros q Hq. eapply gen_split_part_info_adjacent; eassumption.
  - intros d pl video_path sfx _ Hpl.
    destruct (gen_split_part_info d pl video_path sfx) as [parts r] eqn:Hrun.
    assert (r = None) by (rewrite gen_split_part_info_Q in Hrun by lra; congruence).
    subst r. exists parts. split; [reflexivity|].
    intros k p Hk Hlt.
    destruct (gen_split_part_info_start _ _ _ _ _ _ _ _ Hrun Hk)
      as (Hi & fpart & Hf & Hs).
    cbn [of_int fmul PyFloat_Q] in Hf, Hs. inversion Hf; subst fpart.
    destruct (gen_split_part_info_stop _ _ _ _ _ _ _ Hrun Hk) as (h & _ & Hmid & _).
    destruct (Hmid Hlt) as (fnext & Hn & Hstop).
    cbn [of_int fmul PyFloat_Q] in Hn, Hstop.
    assert (Hnext : fnext = inject_Z (index p)) by (rewrite Hi; congruence).
    subst fnext.
    split; [assumption|]. split; [assumption|].
    rewrite Hs, inject_Z_pred. ring.
Qed.

Lemma C10_boundaries_are_products_witness :
  0 <= 25 # 1 /\ 0 < 10 # 1 /\
  exists parts,
    gen_split_part_info (25 # 1) (10 # 1) video part_sfx = (parts, None) /\
    forall k p, nth_error parts k = Some p -> (S k < length parts)%nat ->
      start p = (10 # 1) * inject_Z (index p - 1) /\
      stop p = Some ((10 # 1) * inject_Z (index p)) /\
      (10 # 1) * inject_Z (index p) - start p == 10 # 1.
Proof.
  split; [unfold Qle; simpl; lia|]. split; [reflexivity|].
  apply (proj2 C10_boundaries_are_products (25 # 1) (10 # 1) video part_sfx);
    [unfold Qle; simpl; lia | reflexivity].
Defined.

(** C10, as stated, fails over binary64 for a source of 1 second split into
    parts of 0.1 second: the third part goes from 0.2 to
    0.30000000000000004, and the difference of the two is not the double
    0.1. *)
Lemma C10_rounded_length :
  exists parts p,
    gen_split_part_info (lit 1 1) (lit 1 10) video part_sfx = (parts, None) /\
    nth_error parts 2 = Some p /\ (3 < length parts)%nat /\
    lit 1 10 = S754_finite false 7205759403792794 (-56) /\
    start p = S754_finite false 7205759403792794 (-55) /\
    stop p = Some (S754_finite false 5404319552844596 (-54)) /\
    SFsub prec emax (S754_finite false 5404319552844596 (-54)) (start p)
      = S754_finite false 7205759403792796 (-56) /\
    SFeqb (SFsub prec emax (S754_finite false 5404319552844596 (-54)) (start p))
          (lit 1 10) = false.
Proof.
  do 2 eexists. split; [vm_compute; reflexivity|].
  split; [reflexivity|]. split; [simpl; lia|].
  repeat split; vm_compute; reflexivity.
Qed.

(** ** Runs over binary64 *)

(** A quotient that overflows, here below minus the largest double:
    [int(part_ratio)] raises before anything is yielded. *)
Example binary64_quotient_overflows :
  gen_split_part_info (lit 20 1) (lit (-1) (10 ^ 308)) video part_sfx
    = ([], Some OverflowError).
Proof. vm_compute. reflexivity. Qed.

(** A leftover rounded below the threshold: for a source of 1 second and
    parts of 49 seconds the double [1 / 49 * 49] is below 1, and the plan is
    empty, where exact arithmetic yields one part. *)
Example binary64_leftover_rounds_down :
  gen_split_part_info (lit 1 1) (lit 49 1) video part_sfx = ([], None) /\
  (exists p, gen_split_part_info (1 # 1) (49 # 1) video part_sfx = ([p], None)).
Proof. split; [vm_compute; reflexivity | eexists; reflexivity]. Qed.

(** The scenarios of the specification, run over binary64. *)
Example binary64_scenarios :
  map (fun p => (index p, total p, start p, stop p))
      (fst (gen_split_part_info (lit 20 1) (lit 10 1) video part_sfx))
    = [(1, 2, lit 0 1, Some (lit 10 1)); (2, 2, lit 10 1, Some (lit 20 1))]%Z /\
  map (fun p => (index p, total p, start p, stop p))
      (fst (gen_split_part_info (lit 25 1) (lit 10 1) video part_sfx))
    = [(1, 3, lit 0 1, Some (lit 10 1)); (2, 3, lit 10 1, Some (lit 20 1));
       (3, 3, lit 20 1, None)]%Z /\
  map (fun p => (index p, total p, start p, stop p))
      (fst (gen_split_part_info (lit 203 10) (lit 10 1) video part_sfx))
    = [(1, 2, lit 0 1, Some (lit 10 1)); (2, 2, lit 10 1, Some (lit 20 1))]%Z /\
  map (fun p => (index p, total p, start p, stop p, clip_name p))
      (fst (gen_split_part_info (lit 5 1) (lit 10 1) video part_sfx))
    = [(1, 1, lit 0 1, None, "video__part_1_of_1.mp4"%string)]%Z.
Proof. repeat split; vm_compute; reflexivity. Qed.

(** ** More of the code *)

(** *** Strings *)

Lemma string_length_app (a b : string) :
  String.length (a ++ b) = (String.length a + String.length b)%nat.
Proof. induction a; simpl; [reflexivity | now rewrite IHa]. Qed.

Lemma string_app_inv_head (a x y : string) :
  (a ++ x)%string = (a ++ y)%string -> x = y.
Proof. induction a; simpl; intros E; [assumption | injection E; auto]. Qed.

Lemma string_app_inv_tail (x y b : string) :
  (x ++ b)%string = (y ++ b)%string -> x = y.
Proof.
  revert y. induction x as [|c x IH]; intros [|c' y] E; simpl in E.
  - reflexivity.
  - exfalso. apply (f_equal String.length) in E. simpl in E.
    rewrite string_length_app in E. lia.
  - exfalso. apply (f_equal String.length) in E. simpl in E.
    rewrite string_length_app in E. lia.
  - injection E as -> E. f_equal. auto.
Qed.

(** Two ints with the same decimal form are the same int. *)
Lemma str_int_inj (m n : Z) : str_int m = str_int n -> m = n.
Proof.
  unfold str_int. intros E.
  assert (Hnil : forall z, Z.to_int z <> Decimal.Pos Decimal.Nil /\
                           Z.to_int z <> Decimal.Neg Decimal.Nil).
  { intros [|p|p]; simpl; split; try discriminate;
      intros [= Hp]; revert Hp; apply DecimalPos.Unsigned.to_uint_nonnil. }
  apply DecimalZ.to_int_inj.
  assert (Some (Z.to_int m) = Some (Z.to_int n)) as [= ->]; [|reflexivity].
  rewrite <- (NilZero.isi (Z.to_int m)), <- (NilZero.isi (Z.to_int n));
    try apply Hnil.
  now rewrite E.
Qed.

(** *** The files one run of [split] writes *)

Section DistinctNames.

Context {F : Type} {PF : PyFloat F}.

(** X1.  The parts of one run get pairwise different names, whatever the
    arithmetic and whether or not the run ends on an exception: [split]
    never writes two parts to the same file. *)
Theorem X1_clip_names_distinct (video_len part_len : F) (video_path : PurePath)
    (sfx : string) :
  NoDup (map clip_name
             (fst (gen_split_part_info video_len part_len video_path sfx))).
Proof.
  destruct (gen_split_part_info video_len part_len video_path sfx) as [ps r] eqn:Hrun.
  cbn [fst]. apply NoDup_nth_error. intros i j Hi E.
  rewrite length_map in Hi. rewrite !nth_error_map in E.
  destruct (nth_error ps i) as [p|] eqn:Hp; [|apply nth_error_None in Hp; lia].
  destruct (nth_error ps j) as [q|] eqn:Hq; [|discriminate].
  cbn [option_map] in E. injection E as E.
  destruct (gen_split_part_info_nth _ _ _ _ _ _ _ _ Hrun Hp) as (h & Hh & Hbp & _).
  destruct (gen_split_part_info_nth _ _ _ _ _ _ _ _ Hrun Hq) as (h' & Hh' & Hbq & _).
  assert (h' = h) by congruence. subst h'.
  destruct (gen_split_part_inv _ _ _ _ _ _ _ Hbp) as (_ & _ & Hnp & _).
  destruct (gen_split_part_inv _ _ _ _ _ _ _ Hbq) as (_ & _ & Hnq & _).
  rewrite Hnp, Hnq in E.
  do 3 apply string_app_inv_head in E.
  apply string_app_inv_tail in E. apply str_int_inj in E. lia.
Qed.

End DistinctNames.

(** *** Time stamps *)

Lemma split_on_length (sep : ascii) (s : string) :
  length (split_on sep s) = S (count_char sep s).
Proof.
  induction s as [|c s IH]; [reflexivity|].
  cbn [split_on count_char]. destruct (Ascii.eqb c sep).
  - simpl. now rewrite IH.
  - destruct (split_on sep s) as [|piece pieces]; simpl in *; lia.
Qed.

Lemma split_on_cons (sep : ascii) (s : string) :
  exists piece pieces, split_on sep s = piece :: pieces.
Proof.
  pose proof (split_on_length sep s) as Hlen.
  destruct (split_on sep s) as [|piece pieces]; [discriminate|].
  now exists piece, pieces.
Qed.

(** Joining the pieces with the separator gives the string back. *)
Lemma join_split_on (sep : ascii) (s : string) :
  join (String sep EmptyString) (split_on sep s) = s.
Proof.
  induction s as [|c s IH]; [reflexivity|].
  cbn [split_on]. destruct (split_on_cons sep s) as (piece & pieces & E). rewrite E in *.
  destruct (Ascii.eqb c sep) eqn:Ec.
  - apply Ascii.eqb_eq in Ec. subst c.
    change (join (String sep "") ("" :: piece :: pieces))%string
      with (String sep (join (String sep "") (piece :: pieces))).
    now rewrite IH.
  - destruct pieces as [|piece' pieces'].
    + cbn [join] in *. now rewrite IH.
    + change (join (String sep "") (String c piece :: piece' :: pieces'))%string
        with (String c (join (String sep "") (piece :: piece' :: pieces'))).
      now rewrite IH.
Qed.

(** Joining them with nothing in between removes the separator. *)
Lemma join_empty_split_on (sep : ascii) (s : string) :
  join EmptyString (split_on sep s) = remove_char sep s.
Proof.
  induction s as [|c s IH]; [reflexivity|].
  cbn [split_on remove_char]. destruct (split_on_cons sep s) as (piece & pieces & E). rewrite E in *.
  destruct (Ascii.eqb c sep).
  - rewrite <- IH. reflexivity.
  - rewrite <- IH. destruct pieces; reflexivity.
Qed.

Lemma split_on_pieces (sep : ascii) (s : string) :
  Forall (fun piece => count_char sep piece = O) (split_on sep s).
Proof.
  induction s as [|c s IH]; [repeat constructor|].
  cbn [split_on]. destruct (split_on_cons sep s) as (piece & pieces & E). rewrite E in *.
  destruct (Ascii.eqb c sep) eqn:Ec.
  - constructor; [reflexivity | assumption].
  - inversion IH; subst. constructor; [|assumption].
    simpl. now rewrite Ec.
Qed.

Lemma split_on_no_sep (sep : ascii) (s : string) :
  count_char sep s = O -> split_on sep s = [s].
Proof.
  induction s as [|c s IH]; [reflexivity|].
  cbn [split_on count_char]. destruct (Ascii.eqb c sep); [discriminate|].
  intros Hc. now rewrite IH.
Qed.

Lemma split_on_app (sep : ascii) (a rest : string) :
  count_char sep a = O ->
  split_on sep (a ++ String sep rest) = a :: split_on sep rest.
Proof.
  induction a as [|c a IH]; cbn [append split_on count_char].
  - now rewrite Ascii.eqb_refl.
  - destruct (Ascii.eqb c sep); [discriminate|].
    intros Hc. now rewrite IH.
Qed.

Lemma count_char_app (c : ascii) (a b : string) :
  count_char c (a ++ b) = (count_char c a + count_char c b)%nat.
Proof. induction a; simpl; [reflexivity | rewrite IHa; lia]. Qed.

(** A string splits into three pieces exactly when it is three fields
    without the separator, put together with two separators. *)
Lemma split_on_three (sep : ascii) (s a b c : string) :
  split_on sep s = [a; b; c] <->
  s = (a ++ String sep (b ++ String sep c))%string /\
  count_char sep a = O /\ count_char sep b = O /\ count_char sep c = O.
Proof.
  split.
  - intros Hs.
    pose proof (join_split_on sep s) as Hjoin.
    pose proof (split_on_pieces sep s) as Hp.
    rewrite Hs in Hjoin, Hp. cbn [join append] in Hjoin.
    inversion Hp as [|? ? Ha Hp1]; subst.
    inversion Hp1 as [|? ? Hb Hp2]; subst.
    inversion Hp2 as [|? ? Hc _]; subst.
    auto.
  - intros (-> & Ha & Hb & Hc).
    rewrite split_on_app by assumption.
    rewrite split_on_app by assumption.
    now rewrite split_on_no_sep by assumption.
Qed.

Section TimeStampFacts.

Context {F : Type}.
Variable py_int : string -> option Z.
Variable py_float : string -> option F.
Variable le_int : F -> Z -> bool.

Lemma timestamp_convert_three (value hour min sec : string) :
  split_on ":" value = [hour; min; sec] ->
  timestamp_convert py_int py_float le_int value =
    match py_int hour, py_int min, py_float sec with
    | Some _, Some m, Some s =>
        if (m <=? 60)%Z && le_int s 60 then inr value else inl NotInRange
    | _, _, _ => inl NotNumeric
    end.
Proof. unfold timestamp_convert. now intros ->. Qed.

Lemma timestamp_convert_other (value : string) :
  length (split_on ":" value) <> 3%nat ->
  timestamp_convert py_int py_float le_int value = inl NotTimeStampFormat.
Proof.
  unfold timestamp_convert.
  destruct (split_on ":" value) as [|a [|b [|c [|x pieces]]]]; simpl;
    intros Hlen; try reflexivity. lia.
Qed.

(** X6.  [TimeStamp.convert] reports the format error exactly for the
    values that do not hold two colons.  A value is accepted exactly when it
    is [hour:min:sec] with three fields free of colons, of which [hour] and
    [min] read as ints and [sec] as a float, with [min <= 60] and
    [sec <= 60]; it is then returned unchanged.  No field is bounded from
    below, and [hour] is not bounded at all. *)
Theorem X6_timestamp_convert (value : string) :
  (timestamp_convert py_int py_float le_int value = inl NotTimeStampFormat
   <-> count_char ":" value <> 2%nat) /\
  (forall v, timestamp_convert py_int py_float le_int value = inr v <->
     v = value /\
     exists hour min sec h m s,
       value = (hour ++ ":" ++ min ++ ":" ++ sec)%string /\
       count_char ":" hour = O /\ count_char ":" min = O /\
       count_char ":" sec = O /\
       py_int hour = Some h /\ py_int min = Some m /\ py_float sec = Some s /\
       (m <= 60)%Z /\ le_int s 60 = true).
Proof.
  pose proof (split_on_length ":" value) as Hlen.
  destruct (Nat.eq_dec (count_char ":" value) 2) as [Htwo|Hnot].
  - (* two colons: three fields *)
    destruct (split_on ":" value) as [|hour [|min [|sec [|x pieces]]]] eqn:Hs;
      simpl in Hlen; try lia.
    rewrite (timestamp_convert_three _ _ _ _ Hs).
    apply split_on_three in Hs. destruct Hs as (Hv & Hh & Hm & Hsec).
    split.
    + split; [|intros; lia].
      destruct (py_int hour), (py_int min), (py_float sec); try discriminate.
      destruct ((_ <=? 60)%Z && _); discriminate.
    + intros v. split.
      * destruct (py_int hour) as [h|] eqn:Eh; [|discriminate].
        destruct (py_int min) as [m|] eqn:Em; [|discriminate].
        destruct (py_float sec) as [s|] eqn:Es; [|discriminate].
        destruct ((m <=? 60)%Z && le_int s 60) eqn:Er; [|discriminate].
        intros [= <-]. split; [reflexivity|].
        apply andb_prop in Er. destruct Er as (Er1 & Er2).
        apply Z.leb_le in Er1.
        exists hour, min, sec, h, m, s. repeat split; assumption.
      * intros (-> & hour' & min' & sec' & h & m & s & E & H1 & H2 & H3
                & Ph & Pm & Ps & Rm & Rs).
        assert (Hs' : split_on ":" value = [hour'; min'; sec'])
          by (apply split_on_three; auto).
        assert (Hs : split_on ":" value = [hour; min; sec])
          by (apply split_on_three; auto).
        rewrite Hs in Hs'. injection Hs' as <- <- <-.
        rewrite Ph, Pm, Ps.
        apply Z.leb_le in Rm. now rewrite Rm, Rs.
  - (* any other number of colons *)
    rewrite timestamp_convert_other by lia.
    split; [tauto|].
    intros v. split; [discriminate|].
    intros (_ & hour & min & sec & h & m & s & E & H1 & H2 & H3 & _).
    exfalso. apply Hnot. rewrite E.
    rewrite !count_char_app, H1, H2, H3. reflexivity.
Qed.

End TimeStampFacts.

(** X7.  The file the [clip] command writes is named
    [{stem}_clip_{start}_{stop}{suffix}] with every colon taken out of the
    two time stamps and nothing else changed. *)
Theorem X7_clip_command_name (video_file : PurePath) (start stop : string) :
  clip_command_name video_file start stop =
    (stem video_file ++ "_clip_" ++ remove_char ":" start ++ "_"
       ++ remove_char ":" stop ++ suffix video_file)%string.
Proof.
  unfold clip_command_name. rewrite !join_empty_split_on.
  cbn [append]. rewrite !string_app_assoc. reflexivity.
Qed.

(** *** Finding video files *)

Lemma filter_all {A : Type} (f : A -> bool) (l : list A) :
  (forall x, In x l -> f x = true) -> filter f l = l.
Proof.
  induction l as [|a l IH]; intros Hall; [reflexivity|].
  simpl. rewrite (Hall a (or_introl eq_refl)). f_equal.
  apply IH. intros x Hx. apply Hall. now right.
Qed.

Section VideoPathsFacts.

Variable extensions_dict : list (string * string).
Variable glob : string -> list PurePath.

(** X8.  A path has an empty suffix or one that starts with a dot.  An
    extension given without its dot, as the keys of [extensions_dict] that
    [gen_video_paths] puts after ["**/*."] and that the [convert] command
    passes on, is therefore the suffix of no path:
    [gen_video_paths_filter_ext] filters nothing out. *)
Theorem X8_filter_ext_without_dot (c : ascii) (ext : string) :
  (forall path, In path (gen_video_paths extensions_dict glob) ->
     suffix path = EmptyString \/ exists t, suffix path = String "." t) ->
  c <> "."%char ->
  gen_video_paths_filter_ext extensions_dict glob (String c ext)
    = gen_video_paths extensions_dict glob.
Proof.
  intros Hshape Hc. unfold gen_video_paths_filter_ext.
  apply filter_all. intros path Hin.
  apply negb_true_iff, String.eqb_neq.
  destruct (Hshape path Hin) as [-> | (t & ->)]; [discriminate|].
  intros [= E _]. congruence.
Qed.

(** Paths are kept in the order found, and a path is kept exactly when its
    suffix differs from the extension. *)
Lemma gen_video_paths_filter_ext_In (ext : string) (path : PurePath) :
  In path (gen_video_paths_filter_ext extensions_dict glob ext) <->
  In path (gen_video_paths extensions_dict glob) /\ suffix path <> ext.
Proof.
  unfold gen_video_paths_filter_ext. rewrite filter_In.
  now rewrite negb_true_iff, String.eqb_neq.
Qed.

End VideoPathsFacts.

Lemma X8_filter_ext_without_dot_witness :
  let extensions_dict := [("mp4", "video"); ("mp3", "audio"); ("avi", "video")]%string in
  let glob := fun pattern : string =>
                if String.eqb pattern "**/*.mp4"
                then [{| stem := "a"; suffix := ".mp4" |};
                      {| stem := "b"; suffix := ".mp4" |}]
                else if String.eqb pattern "**/*.avi"
                then [{| stem := "c"; suffix := ".avi" |}]
                else [] in
  (forall path, In path (gen_video_paths extensions_dict glob) ->
     suffix path = EmptyString \/ exists t, suffix path = String "." t) /\
  "m"%char <> "."%char /\
  gen_video_paths_filter_ext extensions_dict glob "mp4"
    = gen_video_paths extensions_dict glob.
Proof.
  intros extensions_dict glob.
  assert (Hshape : forall path, In path (gen_video_paths extensions_dict glob) ->
            suffix path = EmptyString \/ exists t, suffix path = String "." t).
  { intros path Hin. vm_compute in Hin.
    destruct Hin as [<-|[<-|[<-|[]]]]; right; eexists; reflexivity. }
  split; [exact Hshape|]. split; [discriminate|].
  apply (X8_filter_ext_without_dot extensions_dict glob "m" "p4" Hshape).
  discriminate.
Defined.

(** *** The preferred audio codec *)

Lemma lstrip_repeat_char (c : ascii) (n : nat) (s : string) :
  lstrip c (repeat_char c n ++ s) = lstrip c s.
Proof. induction n; simpl; [reflexivity | now rewrite Ascii.eqb_refl]. Qed.

Lemma lstrip_inv (c : ascii) (s : string) :
  exists n, s = (repeat_char c n ++ lstrip c s)%string.
Proof.
  induction s as [|a s (n & IH)].
  - now exists O.
  - cbn [lstrip]. destruct (Ascii.eqb a c) eqn:E.
    + apply Ascii.eqb_eq in E. subst a. exists (S n). simpl. now rewrite <- IH.
    + now exists O.
Qed.

(** X9.  [get_audio_codec] prefers a codec only for mp4, and then aac: the
    answer is [aac] exactly when the suffix of the file is [mp4] after its
    leading dots, in lower case; any other suffix gets [None]. *)
Theorem X9_get_audio_codec (videofile : PurePath) (codec : string) :
  get_audio_codec videofile = Some codec <->
  codec = "aac"%string /\
  exists n, suffix videofile = (repeat_char "." n ++ "mp4")%string.
Proof.
  unfold get_audio_codec, PREFERRED_AUDIO_CODEC. cbn [dict_get]. split.
  - destruct (String.eqb_spec "mp4" (lstrip "." (suffix videofile))) as [E|E];
      [|discriminate].
    intros [= <-]. split; [reflexivity|].
    destruct (lstrip_inv "." (suffix videofile)) as (n & Hn).
    exists n. now rewrite E.
  - intros (-> & n & ->). rewrite lstrip_repeat_char. reflexivity.
Qed.

(** *** Part lengths that are no positive number, over binary64 *)

(** X13.  Over binary64, for every duration that is a number: a part length
    of 0.0 or -0.0 makes the division raise ZeroDivisionError, one that is
    NaN makes [int(part_ratio)] raise ValueError, in both cases before
    anything is yielded; an infinite part length raises nothing and gives
    the empty plan. *)
Theorem X13_degenerate_part_length (d pl : spec_float) (video_path : PurePath)
    (sfx : string) :
  d <> S754_nan -> (forall s, d <> S754_infinity s) ->
  (forall s, pl = S754_zero s ->
     gen_split_part_info d pl video_path sfx = ([], Some ZeroDivisionError)) /\
  (pl = S754_nan ->
     gen_split_part_info d pl video_path sfx = ([], Some ValueError)) /\
  (forall s, pl = S754_infinity s ->
     gen_split_part_info d pl video_path sfx = ([], None)).
Proof.
  intros Hnan Hinf.
  split; [|split].
  - intros s ->. reflexivity.
  - intros ->.
    destruct d as [sd|sd| |sd md ed];
      [|now destruct (Hinf sd)|congruence|]; reflexivity.
  - intros sp ->.
    destruct d as [sd|sd| |sd md ed];
      [|now destruct (Hinf sd)|congruence|];
      destruct sd, sp; reflexivity.
Qed.

Lemma X13_degenerate_part_length_witness :
  lit 25 1 <> S754_nan /\ (forall s, lit 25 1 <> S754_infinity s) /\
  gen_split_part_info (lit 25 1) (S754_infinity true) video part_sfx = ([], None).
Proof.
  assert (H1 : lit 25 1 <> S754_nan) by (vm_compute; discriminate).
  assert (H2 : forall s, lit 25 1 <> S754_infinity s)
    by (intros s; vm_compute; discriminate).
  split; [exact H1|]. split; [exact H2|].
  apply (proj2 (proj2 (X13_degenerate_part_length (lit 25 1) (S754_infinity true)
                         video part_sfx H1 H2)) true).
  reflexivity.
Defined.

(** *** Which inputs make the division or [int] raise, over binary64 *)

Section RaisedByInput.

Local Open Scope Z_scope.

(** X14.  Over binary64, the run ends on ZeroDivisionError exactly when the
    part length is 0.0 or -0.0, and on ValueError exactly when the part
    length is not a zero and the duration is NaN, or the part length is
    NaN, or both are infinite: these are the inputs whose quotient is NaN,
    a quotient of two numbers never being NaN.  In both cases nothing has
    been yielded. *)
Theorem X14_exceptions_by_input (d pl : spec_float) (video_path : PurePath)
    (sfx : string) :
  (snd (gen_split_part_info d pl video_path sfx) = Some ZeroDivisionError <->
   exists s, pl = S754_zero s) /\
  (snd (gen_split_part_info d pl video_path sfx) = Some ValueError <->
   (forall s, pl <> S754_zero s) /\
   (d = S754_nan \/ pl = S754_nan \/
    exists s s', d = S754_infinity s /\ pl = S754_infinity s')) /\
  (snd (gen_split_part_info d pl video_path sfx) = Some ZeroDivisionError \/
   snd (gen_split_part_info d pl video_path sfx) = Some ValueError ->
   fst (gen_split_part_info d pl video_path sfx) = []).
Proof.
  assert (Hzero : snd (gen_split_part_info d pl video_path sfx)
                    = Some ZeroDivisionError ->
                  exists s, pl = S754_zero s).
  { intros He. destruct pl as [sp|sp| |sp mp ep]; [now exists sp| | |];
      exfalso; revert He; apply binary64_no_zero_division; discriminate. }
  assert (Hvalue : snd (gen_split_part_info d pl video_path sfx)
                     = Some ValueError ->
                   gen_split_part_info d pl video_path sfx
                     = ([], Some ValueError) /\
                   (forall s, pl <> S754_zero s) /\
                   SFdiv prec emax d pl = S754_nan).
  { intros He. pose proof (binary64_value_error _ _ _ _ He) as Hq.
    split; [now apply binary64_nan_ratio|].
    destruct (float_div_ok _ _ _ Hq) as (Er & Hnz). auto. }
  split; [|split].
  - split; [exact Hzero|]. intros (s & ->). reflexivity.
  - split.
    + intros He. destruct (Hvalue He) as (_ & Hnz & Hnan).
      split; [assumption|]. now apply SFdiv_nan.
    + intros (Hnz & Hcases).
      rewrite (binary64_nan_ratio d pl); [reflexivity|].
      rewrite float_div_nonzero by assumption. f_equal.
      now apply SFdiv_nan.
  - intros [He | He].
    + destruct (Hzero He) as (s & ->). reflexivity.
    + destruct (Hvalue He) as (-> & _). reflexivity.
Qed.

End RaisedByInput.
